(** * Impact dashboard: ingestion pipeline and scoring engine

    A shallow embedding of [fetch_data.py] (the paged ingestion of merged
    pull requests inside a trailing window) and of [score.py] (the
    per-contributor scoring model), with the properties of the two stages.

    Conventions of the embedding:
    - a timestamp is a [Z], the number of microseconds since the epoch in
      UTC: the value [datetime.fromisoformat] gives for the ISO string the
      API returns.  A missing, null or empty timestamp is [None];
    - a JSON object field that may be null or absent is an [option];
    - a Python [int] is a [Z]; a Python [float] is an IEEE 754 binary64
      number, [spec_float] at precision 53 and maximal exponent 1024;
    - a Python [dict] keyed by contributor is a [gmap string _]; the
      iteration order of a Python [set] of strings depends on the string
      hash of the process, and is an explicit argument of the scoring
      engine;
    - the scoring engine is a function of the table it is given, in
      which a list-valued cell is [Some l] when it holds a Python list;
      [Parquet.read_parquet] gives the table as [score.py] finds it in the
      file that [fetch_data.py] has written;
    - paths and titles are ASCII text: case-insensitive matching folds the
      letters [A..Z] only. *)

From Stdlib Require Import ZArith Ascii SpecFloat.
From stdpp Require Import gmap strings list fin_maps pretty sorting.

Local Open Scope string_scope.
Local Open Scope list_scope.
Local Open Scope Z_scope.

(** ** Python values shared by the two stages *)

(** [x or "unknown"] on a value that is [None] or a string: the empty string
    is falsy. *)
Definition or_unknown (o : option string) : string :=
  match o with
  | Some s => if String.eqb s EmptyString then "unknown" else s
  | None => "unknown"
  end.

(** One flattened review of the activity table: the dict with the keys
    [reviewer], [state] and [submittedAt] that [fetch_data.py] builds.  A
    [reviewer] of [None] stands for a dict without that key. *)
Record ReviewRecord := {
  reviewer : option string;
  state : option string;
  submittedAt : option Z;
}.

(** One row of the activity table.  The cells that [score.py] cleans up
    may hold something else than what is expected there: [author] and
    [title] are [None] when null, and [files], [labels] and [reviews] are
    [Some l] when the cell is a Python list and [None] otherwise. *)
Record ActivityRecord := {
  number : Z;
  title : option string;
  url : string;
  author : option string;
  createdAt : Z;
  mergedAt : Z;
  updatedAt : option Z;
  changedFiles : Z;
  additions : Z;
  deletions : Z;
  commentCount : Z;
  labels : option (list string);
  files : option (list string);
  reviews : option (list ReviewRecord);
}.

(** ** Ingestion: [fetch_data.py] *)

Module FetchData.

(** The raw GraphQL nodes.  In [RawPR], a [None] in [pr_labels],
    [pr_files] or [pr_comments] is a key that is absent or null.  A [None]
    in [pr_reviews] is a ["reviews"] key that is absent, or an object whose
    ["nodes"] are null; a ["reviews"] key that is there and null is not an
    input of the model: the expression that reads it has no [or {}], and
    raises [AttributeError] on it. *)
Record RawAuthor := { login : option string }.

Record RawReview := {
  rv_author : option RawAuthor;
  rv_state : option string;
  rv_submittedAt : option Z;
}.

Record RawPR := {
  pr_number : Z;
  pr_title : option string;
  pr_url : string;
  pr_createdAt : Z;
  pr_mergedAt : option Z;
  pr_updatedAt : option Z;
  pr_author : option RawAuthor;
  pr_changedFiles : Z;
  pr_additions : Z;
  pr_deletions : Z;
  pr_labels : option (list string);
  pr_files : option (list string);
  pr_comments : option Z;
  pr_reviews : option (list RawReview);
}.

Record PageInfo := { hasNextPage : bool; endCursor : option string }.

(** [data["repository"]["pullRequests"]] *)
Record PRBlock := { nodes : option (list RawPR); pageInfo : PageInfo }.

(** [(x.get("author") or {}).get("login") or "unknown"] *)
Definition login_or_unknown (a : option RawAuthor) : string :=
  or_unknown (a ≫= login).

(** The body of [for rv in reviews]: every review is appended, whatever
    its [submittedAt]. *)
Definition flatten_review (rv : RawReview) : ReviewRecord :=
  {| reviewer := Some (login_or_unknown (rv_author rv));
     state := rv_state rv;
     submittedAt := rv_submittedAt rv |}.

Definition review_flat (reviews : list RawReview) : list ReviewRecord :=
  flatten_review <$> reviews.

(** The dict appended to [rows] for a pull request that passed the window
    test. *)
Definition normalize (pr : RawPR) (merged : Z) : ActivityRecord :=
  {| number := pr_number pr;
     title := pr_title pr;
     url := pr_url pr;
     author := Some (login_or_unknown (pr_author pr));
     createdAt := pr_createdAt pr;
     mergedAt := merged;
     updatedAt := pr_updatedAt pr;
     changedFiles := pr_changedFiles pr;
     additions := pr_additions pr;
     deletions := pr_deletions pr;
     commentCount := default 0 (pr_comments pr);
     labels := Some (default [] (pr_labels pr));
     files := Some (default [] (pr_files pr));
     reviews := Some (review_flat (default [] (pr_reviews pr))) |}.

(** What the loop keeps track of, with the log of what it did: the cursor of
    every request sent, and every table written to [data/prs_90d.parquet]. *)
Record LoopState := {
  rows : list ActivityRecord;
  cursor : option string;
  pages : nat;
  requests : list (option string);
  writes : list (list ActivityRecord);
}.

Definition init : LoopState :=
  {| rows := []; cursor := None; pages := 0; requests := []; writes := [] |}.

(** How [while True] is left. *)
Inductive LoopExit :=
  | Raised (st : LoopState)      (* [post_gql] raised after its retries *)
  | Break (st : LoopState)       (* the [break] of the stopping rule *)
  | OutOfFuel (st : LoopState).  (* the model's bound on iterations *)

(** How [main] ends. *)
Inductive Outcome :=
  | TransportFailure             (* the [RuntimeError] of [post_gql] *)
  | NoPRsCollected               (* [raise SystemExit] on empty [rows] *)
  | Saved (df : list ActivityRecord)
  | Unfinished.

Record Run := {
  outcome : Outcome;
  sent : list (option string);
  written : list (list ActivityRecord);
}.

Section Pipeline.

(** [SINCE_DT], the start of the trailing window. *)
Variable SINCE_DT : Z.

(** The transport client, as the loop sees it: the answer to the [n]-th
    request (counting from 0) sent with a given cursor, or [None] when
    [post_gql] raises. *)
Variable post_gql : nat → option string → option PRBlock.

(** [pd.to_datetime(_, utc=True, errors="coerce")] on the column of merge
    times: a second reading of the strings that [iso_to_dt] has read, by
    another parser and of the whole column at once.  [None] is [NaT], which
    the column holds wherever that parser does not take the string. *)
Variable to_datetime : list Z → list (option Z).

(** The body of [for pr in nodes] for one node: [None] for a [continue]. *)
Definition keep_pr (pr : RawPR) : option ActivityRecord :=
  match pr_mergedAt pr with
  | None => None
  | Some merged_dt =>
      if merged_dt <? SINCE_DT then None else Some (normalize pr merged_dt)
  end.

(** The rows one page adds; [kept_this_page] is their number. *)
Definition kept_rows (blk : PRBlock) : list ActivityRecord :=
  omap keep_pr (default [] (nodes blk)).

Definition kept_this_page (blk : PRBlock) : nat := length (kept_rows blk).

(** [old_found_this_page]: set by the loop, read nowhere. *)
Definition old_found_this_page (blk : PRBlock) : bool :=
  existsb (λ pr, match pr_mergedAt pr with
                 | Some m => m <? SINCE_DT
                 | None => false
                 end) (default [] (nodes blk)).

Fixpoint fetch_loop (fuel : nat) (st : LoopState) : LoopExit :=
  match fuel with
  | O => OutOfFuel st
  | S fuel' =>
      let asked := requests st ++ [cursor st] in
      match post_gql (pages st) (cursor st) with
      | None =>
          Raised {| rows := rows st; cursor := cursor st; pages := pages st;
                    requests := asked; writes := writes st |}
      | Some pr_block =>
          let pages' := S (pages st) in
          let rows' := rows st ++ kept_rows pr_block in
          let writes' :=
            if (pages' mod 10 =? 0)%nat then writes st ++ [rows'] else writes st in
          if (kept_this_page pr_block =? 0)%nat then
            Break {| rows := rows'; cursor := cursor st; pages := pages';
                     requests := asked; writes := writes' |}
          else
            fetch_loop fuel'
              {| rows := rows'; cursor := endCursor (pageInfo pr_block);
                 pages := pages'; requests := asked; writes := writes' |}
      end
  end.

(** [df[df["mergedAt_dt"] >= pd.Timestamp(SINCE_DT)]]: the rows whose
    entry in the column [mergedAt_dt] passes the test, which [NaT] does
    not. *)
Fixpoint mask_rows (df : list ActivityRecord) (mergedAt_dt : list (option Z))
  : list ActivityRecord :=
  match df, mergedAt_dt with
  | r :: df', dt :: dts =>
      if match dt with Some t => SINCE_DT <=? t | None => false end
      then r :: mask_rows df' dts
      else mask_rows df' dts
  | _, _ => []
  end.

(** The final defensive filter on the frame. *)
Definition final_filter (df : list ActivityRecord) : list ActivityRecord :=
  mask_rows df (to_datetime (mergedAt <$> df)).

(** [main]: the loop, the test on [rows], then the final filter and the
    write of what it leaves, which is not tested again. *)
Definition main (fuel : nat) : Run :=
  match fetch_loop fuel init with
  | Raised st =>
      {| outcome := TransportFailure; sent := requests st; written := writes st |}
  | OutOfFuel st =>
      {| outcome := Unfinished; sent := requests st; written := writes st |}
  | Break st =>
      match rows st with
      | [] =>
          {| outcome := NoPRsCollected; sent := requests st;
             written := writes st |}
      | _ =>
          let df := final_filter (rows st) in
          {| outcome := Saved df; sent := requests st;
             written := writes st ++ [df] |}
      end
  end.

(** The state the loop is left in. *)
Definition exit_state (e : LoopExit) : LoopState :=
  match e with
  | Raised st | Break st | OutOfFuel st => st
  end.

(** The window test on a row of the table. *)
Definition in_window (r : ActivityRecord) : Prop := SINCE_DT ≤ mergedAt r.

(** The loop invariant of the window test: rows and checkpoints hold
    in-window records only. *)
Definition window_ok (st : LoopState) : Prop :=
  Forall in_window (rows st) ∧ Forall (Forall in_window) (writes st).

(** A page with its [hasNextPage] flag rewritten. *)
Definition with_flag (g : bool → bool) (blk : PRBlock) : PRBlock :=
  {| nodes := nodes blk;
     pageInfo := {| hasNextPage := g (hasNextPage (pageInfo blk));
                    endCursor := endCursor (pageInfo blk) |} |}.

(** The pages a loop that never stopped would be answered: [n] requests,
    the first one being the [i]-th request and carrying the cursor [c], each
    later one carrying the [endCursor] of the page before it.  The list ends
    early where the transport fails. *)
Fixpoint trail (n i : nat) (c : option string) : list PRBlock :=
  match n with
  | O => []
  | S n' =>
      match post_gql i c with
      | None => []
      | Some blk => blk :: trail n' (S i) (endCursor (pageInfo blk))
      end
  end.

End Pipeline.

End FetchData.

(** ** Python numbers *)

(** A Python number as the scoring code has them: an [int] or a [float]. *)
Inductive pynum :=
  | PInt (z : Z)
  | PFloat (f : spec_float).

Module Py.

Definition prec : Z := 53.
Definition emax : Z := 1024.

(** [float(z)] for an [int]: the nearest binary64 number, ties to even.
    (CPython raises [OverflowError] beyond the binary64 range, where this
    gives an infinity; no total of the scoring code gets there.) *)
Definition float_of_int (z : Z) : spec_float :=
  binary_normalize prec emax z 0 false.

(** A decimal literal [n/d]: the binary64 number nearest to the rational it
    denotes, which is what the correctly rounded quotient of the exactly
    representable [n] and [d] is. *)
Definition literal (n d : Z) : spec_float :=
  SFdiv prec emax (float_of_int n) (float_of_int d).

Definition zero : spec_float := S754_zero false.

(** [float(x)] *)
Definition float (x : pynum) : spec_float :=
  match x with
  | PInt z => float_of_int z
  | PFloat f => f
  end.

(** [x + y]: exact on two ints, binary64 otherwise. *)
Definition add (x y : pynum) : pynum :=
  match x, y with
  | PInt a, PInt b => PInt (a + b)
  | _, _ => PFloat (SFadd prec emax (float x) (float y))
  end.

(** [x * y] *)
Definition mul (x y : pynum) : pynum :=
  match x, y with
  | PInt a, PInt b => PInt (a * b)
  | _, _ => PFloat (SFmul prec emax (float x) (float y))
  end.

(** [x < y] on floats. *)
Definition flt (x y : spec_float) : bool := SFltb x y.

End Py.

(** ** Regular expressions of [score.py]

    The five patterns are alternations of literal words between fixed
    anchors; each is embedded as the search it performs on the text. *)

Module Re.

(** One position of a word of a pattern: a literal character, or the
    unescaped [.] that matches any character but a newline. *)
Inductive atom :=
  | Lit (c : ascii)
  | AnyChar.

Fixpoint lit (w : string) : list atom :=
  match w with
  | EmptyString => []
  | String c w' => Lit c :: lit w'
  end.

Definition newline : ascii := ascii_of_N 10.
Definition slash : ascii := ascii_of_N 47.

(** ASCII case folding, for [re.IGNORECASE]. *)
Definition lower (c : ascii) : ascii :=
  let n := N_of_ascii c in
  if ((65 <=? n) && (n <=? 90))%N then ascii_of_N (n + 32) else c.

Definition fold (ignorecase : bool) (c : ascii) : ascii :=
  if ignorecase then lower c else c.

(** [\w] on ASCII text. *)
Definition is_word (c : ascii) : bool :=
  let n := N_of_ascii c in
  (((48 <=? n) && (n <=? 57)) || ((65 <=? n) && (n <=? 90))
   || ((97 <=? n) && (n <=? 122)) || (n =? 95))%N.

Definition match_atom (ignorecase : bool) (a : atom) (c : ascii) : bool :=
  match a with
  | Lit x => Ascii.eqb (fold ignorecase x) (fold ignorecase c)
  | AnyChar => negb (Ascii.eqb c newline)
  end.

(** Match a word at the start of the text; the rest of the text on
    success. *)
Fixpoint match_word (ignorecase : bool) (w : list atom) (s : string)
  : option string :=
  match w with
  | [] => Some s
  | a :: w' =>
      match s with
      | String c s' =>
          if match_atom ignorecase a c then match_word ignorecase w' s' else None
      | EmptyString => None
      end
  end.

(** [(/|$)] at the start of the text: a slash, the end, or a last newline. *)
Definition slash_or_end (s : string) : bool :=
  match s with
  | EmptyString => true
  | String c EmptyString => Ascii.eqb c slash || Ascii.eqb c newline
  | String c _ => Ascii.eqb c slash
  end.

(** [^(w1|w2|...)/] searched in the text: only position 0 can match. *)
Definition search_prefix_dir (words : list (list atom)) (s : string) : bool :=
  existsb (λ w, match match_word false w s with
                | Some (String c _) => Ascii.eqb c slash
                | _ => false
                end) words.

(** [(^|/)(w1|w2|...)(/|$)] with [re.IGNORECASE], searched in the text;
    [start] tells whether the position is the start of the text or follows
    a slash. *)
Fixpoint search_segment_from (words : list (list atom)) (start : bool)
    (s : string) : bool :=
  (start && existsb (λ w, match match_word true w s with
                          | Some rest => slash_or_end rest
                          | None => false
                          end) words)
  || match s with
     | EmptyString => false
     | String c s' => search_segment_from words (Ascii.eqb c slash) s'
     end.

Definition search_segment (words : list (list atom)) (s : string) : bool :=
  search_segment_from words true s.

(** [\b(w1|w2|...)\b] with [re.IGNORECASE], searched in the text; every word
    starts and ends with a word character, so the boundaries ask for no
    word character before and none after.  [prev] tells whether the
    character before the position is a word character. *)
Definition no_word_next (s : string) : bool :=
  match s with
  | EmptyString => true
  | String c _ => negb (is_word c)
  end.

Fixpoint search_word_from (words : list (list atom)) (prev : bool)
    (s : string) : bool :=
  (negb prev && existsb (λ w, match match_word true w s with
                              | Some rest => no_word_next rest
                              | None => false
                              end) words)
  || match s with
     | EmptyString => false
     | String c s' => search_word_from words (is_word c) s'
     end.

Definition search_word (words : list (list atom)) (s : string) : bool :=
  search_word_from words false s.

End Re.

(** ** Scoring: [score.py] *)

Module Score.

Definition W_BASE_PR : Z := 10.
Definition W_SIZE_M : Z := 4.
Definition W_SIZE_L : Z := 8.
Definition W_TESTS_DOCS : Z := 2.
Definition W_BUGFIX : Z := 3.
Definition W_INFRA_TOOLING : Z := 3.

Definition W_REVIEW : Z := 2.
Definition W_REVIEW_EARLY : Z := 1.

(** The ordered (pattern, multiplier) pairs; the [.] of [.github] in the
    second pattern is not escaped. *)
Definition CORE_AREA : list (list Re.atom) :=
  map Re.lit ["posthog"; "plugin-server"; "frontend"; "backend"; "hogvm";
              "hogql"; "ee"; "api"; "src"; "apps"].

Definition OPS_AREA : list (list Re.atom) :=
  [Re.lit "infrastructure"; Re.lit "terraform"; Re.lit "ops";
   Re.lit "docker"; Re.AnyChar :: Re.lit "github"; Re.lit "helm";
   Re.lit "kubernetes"].

Definition CORE_MULTIPLIERS : list (list (list Re.atom) * spec_float) :=
  [ (CORE_AREA, Py.literal 13 10); (OPS_AREA, Py.literal 125 100) ].

Definition DEFAULT_MULT : spec_float := Py.literal 1 1.

Definition BUGFIX_RE : list (list Re.atom) :=
  map Re.lit ["fix"; "bug"; "regress"; "hotfix"; "incident"; "crash"].

Definition TEST_DOC_RE : list (list Re.atom) :=
  map Re.lit ["test"; "tests"; "__tests__"; "docs"; "doc"; "documentation"].

Definition INFRA_RE : list (list Re.atom) :=
  map Re.lit [".github"; "ci"; "infra"; "infrastructure"; "terraform";
              "docker"; "kubernetes"; "helm"].

Definition pr_size_bucket (changed_files additions deletions : Z) : string :=
  let churn := additions + deletions in
  if (changed_files <=? 5) && (churn <=? 200) then "S"
  else if (changed_files <=? 20) && (churn <=? 800) then "M"
  else "L".

(** The loop of [core_multiplier] over a table of pairs. *)
Fixpoint first_multiplier (table : list (list (list Re.atom) * spec_float))
    (files : list string) : spec_float :=
  match table with
  | [] => DEFAULT_MULT
  | (pattern, mult) :: table' =>
      if existsb (Re.search_prefix_dir pattern) files then mult
      else first_multiplier table' files
  end.

Definition core_multiplier (files : list string) : spec_float :=
  first_multiplier CORE_MULTIPLIERS files.

Definition has_tests_or_docs (files : list string) : bool :=
  existsb (Re.search_segment TEST_DOC_RE) files.

Definition is_bugfix (title : string) : bool :=
  Re.search_word BUGFIX_RE title.

Definition is_infra_or_tooling (files : list string) : bool :=
  existsb (Re.search_segment INFRA_RE) files.

(** The columns after the defensive cleanup at the top of [main]. *)
Definition df_author (pr : ActivityRecord) : string :=
  default "unknown" (author pr).
Definition df_title (pr : ActivityRecord) : string :=
  default EmptyString (title pr).
Definition df_files (pr : ActivityRecord) : list string :=
  default [] (files pr).
Definition df_reviews (pr : ActivityRecord) : list ReviewRecord :=
  default [] (reviews pr).

(** *** The review table *)

Record ReviewRow := {
  rr_reviewer : string;
  rr_pr_url : string;
  rr_pr_title : string;
  rr_submittedAt : Z;
  rr_early : bool;
}.

(** [24 * 3600] seconds, in microseconds. *)
Definition DAY : Z := 24 * 3600 * 1000000.

(** [(submitted_dt - created).total_seconds() <= 24 * 3600].  The
    difference of two datetimes is a whole number of microseconds, and its
    conversion to seconds as a float is exact enough not to move it across
    the bound: the test is the same on the microseconds. *)
Definition early (created submitted_dt : Z) : bool :=
  submitted_dt - created <=? DAY.

(** The body of [for rv in pr["reviews"]]: [None] for the [continue]. *)
Definition review_row (pr : ActivityRecord) (rv : ReviewRecord)
  : option ReviewRow :=
  match submittedAt rv with
  | None => None
  | Some submitted =>
      Some {| rr_reviewer := default "unknown" (reviewer rv);
              rr_pr_url := url pr;
              rr_pr_title := df_title pr;
              rr_submittedAt := submitted;
              rr_early := early (createdAt pr) submitted |}
  end.

Definition review_rows (df : list ActivityRecord) : list ReviewRow :=
  df ≫= λ pr, omap (review_row pr) (df_reviews pr).

(** *** Scoring authored records *)

Record Breakdown := {
  bd_delivery : pynum;
  bd_reviews : pynum;
  bd_leadership : pynum;
}.

(** One entry of [author_top_prs].  Its [why] text is read only to compute
    [infra_count], which nothing uses; it is left out. *)
Record TopPR := { tp_pts : pynum; tp_title : string; tp_url : string }.

Record AuthorAcc := {
  author_scores : gmap string pynum;
  author_breakdown : gmap string Breakdown;
  author_top_prs : gmap string (list TopPR);
}.

Definition size_pts (pr : ActivityRecord) : Z :=
  let size := pr_size_bucket (changedFiles pr) (additions pr) (deletions pr) in
  if String.eqb size "M" then W_SIZE_M
  else if String.eqb size "L" then W_SIZE_L
  else 0.

(** The value of [pts] after [pts = pts * mult]. *)
Definition pr_points (pr : ActivityRecord) : pynum :=
  let files := df_files pr in
  let mult := core_multiplier files in
  let pts := W_BASE_PR + size_pts pr in
  let pts := if has_tests_or_docs files then pts + W_TESTS_DOCS else pts in
  let pts := if is_bugfix (df_title pr) then pts + W_BUGFIX else pts in
  let pts := if is_infra_or_tooling files then pts + W_INFRA_TOOLING else pts in
  Py.mul (PInt pts) (PFloat mult).

Definition empty_breakdown : Breakdown :=
  {| bd_delivery := PInt 0; bd_reviews := PInt 0; bd_leadership := PInt 0 |}.

(** The split of a record's points between the two buckets. *)
Definition attribute (infra : bool) (pts : pynum) (bd : Breakdown) : Breakdown :=
  if infra then
    {| bd_delivery := bd_delivery bd; bd_reviews := bd_reviews bd;
       bd_leadership := Py.add (bd_leadership bd) pts |}
  else
    {| bd_delivery := Py.add (bd_delivery bd) pts; bd_reviews := bd_reviews bd;
       bd_leadership := bd_leadership bd |}.

(** The body of [for _, pr in df.iterrows()] of the authored records. *)
Definition score_pr (acc : AuthorAcc) (pr : ActivityRecord) : AuthorAcc :=
  let a := df_author pr in
  let pts := pr_points pr in
  let bd := default empty_breakdown (author_breakdown acc !! a) in
  {| author_scores :=
       <[a := Py.add (default (PInt 0) (author_scores acc !! a)) pts]>
         (author_scores acc);
     author_breakdown :=
       <[a := attribute (is_infra_or_tooling (df_files pr)) pts bd]>
         (author_breakdown acc);
     author_top_prs :=
       <[a := default [] (author_top_prs acc !! a)
              ++ [{| tp_pts := pts; tp_title := df_title pr; tp_url := url pr |}]]>
         (author_top_prs acc) |}.

Definition no_authors : AuthorAcc :=
  {| author_scores := ∅; author_breakdown := ∅; author_top_prs := ∅ |}.

Definition score_prs (df : list ActivityRecord) : AuthorAcc :=
  foldl score_pr no_authors df.

(** *** Scoring reviews *)

Record TopReview := {
  tr_pts : Z;
  tr_pr_title : string;
  tr_pr_url : string;
  tr_early : bool;
}.

Record ReviewerAcc := {
  reviewer_scores : gmap string Z;
  reviewer_top_reviews : gmap string (list TopReview);
}.

(** [W_REVIEW + (W_REVIEW_EARLY if rv["early"] else 0)] *)
Definition review_points (rv : ReviewRow) : Z :=
  W_REVIEW + (if rr_early rv then W_REVIEW_EARLY else 0).

Definition score_review (acc : ReviewerAcc) (rv : ReviewRow) : ReviewerAcc :=
  let r := rr_reviewer rv in
  let pts := review_points rv in
  {| reviewer_scores :=
       <[r := default 0 (reviewer_scores acc !! r) + pts]> (reviewer_scores acc);
     reviewer_top_reviews :=
       <[r := default [] (reviewer_top_reviews acc !! r)
              ++ [{| tr_pts := pts; tr_pr_title := rr_pr_title rv;
                     tr_pr_url := rr_pr_url rv; tr_early := rr_early rv |}]]>
         (reviewer_top_reviews acc) |}.

Definition no_reviewers : ReviewerAcc :=
  {| reviewer_scores := ∅; reviewer_top_reviews := ∅ |}.

(** The loop is guarded by [if not reviews_df.empty]; on an empty table it
    would not iterate anyway. *)
Definition score_reviews (reviews_df : list ReviewRow) : ReviewerAcc :=
  foldl score_review no_reviewers reviews_df.

(** *** The contributor table *)

Module Out.
(** One row of the scored table. *)
Record row := {
  engineer : string;
  impact_score : spec_float;
  delivery : spec_float;
  reviews : spec_float;
  leadership : spec_float;
  why : string;
}.
End Out.

(** The body of [for eng in engineers]; the [why] column is filled after
    the sort. *)
Definition engineer_row (a : AuthorAcc) (r : ReviewerAcc) (eng : string)
  : Out.row :=
  let delivery :=
    match author_breakdown a !! eng with
    | Some bd => bd_delivery bd
    | None => PFloat Py.zero
    end in
  let leadership :=
    match author_breakdown a !! eng with
    | Some bd => bd_leadership bd
    | None => PFloat Py.zero
    end in
  let reviews_pts :=
    match reviewer_scores r !! eng with
    | Some z => PInt z
    | None => PFloat Py.zero
    end in
  let total := Py.add (Py.add delivery leadership) reviews_pts in
  {| Out.engineer := eng;
     Out.impact_score := Py.float total;
     Out.delivery := Py.float delivery;
     Out.reviews := Py.float reviews_pts;
     Out.leadership := Py.float leadership;
     Out.why := EmptyString |}.

(** [sort_values("impact_score", ascending=False)].  The sort sees the
    scores only.  The default sort kind is not a stable one: in what order
    it leaves rows of equal score is up to the implementation, and is not
    the order they came in already on a handful of rows.  The model puts
    such rows in the order they came in; what is proved of the scored table
    for every table and every iteration order does not rest on the place
    of a row among the rows of its score. *)
Fixpoint insert_desc (r : Out.row) (out : list Out.row) : list Out.row :=
  match out with
  | [] => [r]
  | x :: out' =>
      if Py.flt (Out.impact_score r) (Out.impact_score x)
      then x :: insert_desc r out'
      else r :: out
  end.

Definition sort_values (rows : list Out.row) : list Out.row :=
  foldr insert_desc [] rows.

Definition nl : string := String Re.newline EmptyString.

(** ["\n".join(...)] *)
Fixpoint join (sep : string) (l : list string) : string :=
  match l with
  | [] => EmptyString
  | [x] => x
  | x :: l' => (x ++ sep ++ join sep l')%string
  end.

(** The evidence bullets of one row of the sorted table. *)
Definition bullets (a : AuthorAcc) (r : ReviewerAcc) (row : Out.row)
  : list string :=
  let eng := Out.engineer row in
  let prs := default [] (author_top_prs a !! eng) in
  let rvs := default [] (reviewer_top_reviews r !! eng) in
  (* [top_prs], the three best entries, is only tested for emptiness *)
  let b1 :=
    match prs with
    | [] => []
    | _ => [("Shipped " ++ pretty (length prs)
             ++ " merged PRs (top examples linked).")%string]
    end in
  let b2 :=
    if 0 <? default 0 (reviewer_scores r !! eng) then
      let early_count := length (filter (λ x, tr_early x = true) rvs) in
      [("Unblocked via " ++ pretty (length rvs) ++ " reviews ("
        ++ pretty early_count ++ " early).")%string]
    else [] in
  let b3 :=
    if Py.flt Py.zero (Out.leadership row)
    then ["Contributed leverage work (infra/tooling changes)."]
    else [] in
  match b1 ++ b2 ++ b3 with
  | [] => ["Contributed via merges and collaboration signals."]
  | bs => bs
  end.

Definition with_why (a : AuthorAcc) (r : ReviewerAcc) (row : Out.row)
  : Out.row :=
  {| Out.engineer := Out.engineer row;
     Out.impact_score := Out.impact_score row;
     Out.delivery := Out.delivery row;
     Out.reviews := Out.reviews row;
     Out.leadership := Out.leadership row;
     Out.why :=
       join nl ((λ b, ("- " ++ b)%string) <$> take 3 (bullets a r row)) |}.

(** The scoring engine.  [iter] is the order in which the process iterates
    over a set of strings.  On a table that yields no contributor the frame
    of rows has no column to sort by and [sort_values] raises [KeyError]:
    [None]. *)
Definition main (iter : gset string → list string)
    (df : list ActivityRecord) : option (list Out.row) :=
  let reviews_df := review_rows df in
  let a := score_prs df in
  let r := score_reviews reviews_df in
  let engineers := dom (author_scores a) ∪ dom (reviewer_scores r) in
  let rows := engineer_row a r <$> iter engineers in
  match rows with
  | [] => None
  | _ => Some (with_why a r <$> sort_values rows)
  end.

(** *** What the engine is compared with *)

(** The contributor universe: who authored a record of the table, and who
    reviewed one with a review that has a submission time. *)
Definition authors (df : list ActivityRecord) : gset string :=
  list_to_set (df_author <$> df).

Definition reviewers (df : list ActivityRecord) : gset string :=
  list_to_set (rr_reviewer <$> review_rows df).

(** The review submitters, read off the cells of the table: the names
    under which the reviews with a submission time stand in the [reviews]
    lists, a review without the key [reviewer] standing under
    ["unknown"]. *)
Definition submitter (rv : ReviewRecord) : option string :=
  match submittedAt rv with
  | Some _ => Some (default "unknown" (reviewer rv))
  | None => None
  end.

Definition submitters (df : list ActivityRecord) : gset string :=
  list_to_set (df ≫= λ pr,
    match reviews pr with
    | Some rvs => omap submitter rvs
    | None => []
    end).

(** The records of the table authored by [k], in the order of the table,
    and the scored reviews submitted by [k]. *)
Definition records_of (k : string) (df : list ActivityRecord)
  : list ActivityRecord :=
  filter (λ pr, df_author pr = k) df.

Definition reviews_of (k : string) (rvs : list ReviewRow) : list ReviewRow :=
  filter (λ rv, rr_reviewer rv = k) rvs.

(** Python's left-to-right sum of points, from an [int] zero. *)
Definition sum_points (l : list pynum) : pynum := foldl Py.add (PInt 0) l.

(** The points of the records of [k] that touch infra or tooling, and of
    those that do not. *)
Definition leadership_of (k : string) (df : list ActivityRecord) : pynum :=
  sum_points (pr_points <$>
    filter (λ pr, is_infra_or_tooling (df_files pr) = true) (records_of k df)).

Definition delivery_of (k : string) (df : list ActivityRecord) : pynum :=
  sum_points (pr_points <$>
    filter (λ pr, is_infra_or_tooling (df_files pr) = false) (records_of k df)).

Definition review_total (k : string) (rvs : list ReviewRow) : Z :=
  foldr Z.add 0 (review_points <$> reviews_of k rvs).

(** Rows in the order of the table: no row has a smaller score than the
    row after it; [above] is the strict order, which two rows of equal
    score are not in. *)
Definition not_below (r1 r2 : Out.row) : Prop :=
  Py.flt (Out.impact_score r1) (Out.impact_score r2) = false.

Definition above (r1 r2 : Out.row) : Prop :=
  Py.flt (Out.impact_score r2) (Out.impact_score r1) = true.

(** What any iteration order of a set does: it yields each element once. *)
Definition set_order (iter : gset string → list string) : Prop :=
  ∀ X, iter X ≡ₚ elements X.

(** The row of a contributor in the scored table. *)
Definition final_row (df : list ActivityRecord) (eng : string) : Out.row :=
  let a := score_prs df in
  let r := score_reviews (review_rows df) in
  with_why a r (engineer_row a r eng).

(** The points a record has accumulated before the multiplier: the base
    and the four bonuses. *)
Definition accumulated (pr : ActivityRecord) : Z :=
  W_BASE_PR + size_pts pr
  + (if has_tests_or_docs (df_files pr) then W_TESTS_DOCS else 0)
  + (if is_bugfix (df_title pr) then W_BUGFIX else 0)
  + (if is_infra_or_tooling (df_files pr) then W_INFRA_TOOLING else 0).

End Score.

(** ** Sample inputs *)

Module Sample.

Import FetchData.

(** The window starts at [1000]. *)
Definition since : Z := 1000.

Definition raw (n : Z) (who : option string) (merged : option Z)
    (rvs : list RawReview) : RawPR :=
  {| pr_number := n; pr_title := Some "fix crash on login"; pr_url := "u";
     pr_createdAt := 0; pr_mergedAt := merged; pr_updatedAt := Some 5000;
     pr_author := Some {| login := who |};
     pr_changedFiles := 1; pr_additions := 50; pr_deletions := 10;
     pr_labels := None; pr_files := Some ["src/app.py"];
     pr_comments := None; pr_reviews := Some rvs |}.

(** A pending review: no author, no submission time. *)
Definition pending : RawReview :=
  {| rv_author := None; rv_state := Some "PENDING"; rv_submittedAt := None |}.

Definition block (l : list RawPR) (more : bool) (c : option string) : PRBlock :=
  {| nodes := Some l; pageInfo := {| hasNextPage := more; endCursor := c |} |}.

(** An upstream of one page, which says that no page follows it: an old
    record, then a recent one with a pending review. *)
Definition last_page : PRBlock :=
  block [raw 1 (Some "alice") (Some 10) []; raw 2 None (Some 2000) [pending]]
        false (Some "c1").

Definition one_page (n : nat) (c : option string) : option PRBlock :=
  match n with
  | O => Some last_page
  | _ => Some (block [] false None)
  end.

(** An upstream whose first page has only old records. *)
Definition stale (n : nat) (c : option string) : option PRBlock :=
  Some (block [raw 1 (Some "alice") (Some 10) []] true (Some "c1")).

(** The record of the end-to-end scenario: one small bug fix under [src/]
    by [alice], not reviewed. *)
Definition record (n : Z) (who : option string) (created : Z)
    (paths : list string) (nfiles : Z) (rvs : list ReviewRecord)
  : ActivityRecord :=
  {| number := n; title := Some "fix crash on login"; url := "u";
     author := who; createdAt := created; mergedAt := 2000;
     updatedAt := None; changedFiles := nfiles; additions := 50;
     deletions := 10; commentCount := 0; labels := Some [];
     files := Some paths; reviews := Some rvs |}.

Definition alice_pr : ActivityRecord :=
  record 1 (Some "alice") 0 ["src/app.py"] 1 [].

(** A large change with tests in a core area, titled without a bug word:
    base 10, size L 8, tests 2. *)
Definition twenty_pr : ActivityRecord :=
  {| number := 2; title := Some "add billing page"; url := "u";
     author := Some "alice"; createdAt := 0; mergedAt := 2000;
     updatedAt := None; changedFiles := 30; additions := 50;
     deletions := 10; commentCount := 0; labels := Some [];
     files := Some ["frontend/tests/billing.tsx"]; reviews := Some [] |}.

Definition review (who : option string) (at_ : option Z) : ReviewRecord :=
  {| reviewer := who; state := Some "APPROVED"; submittedAt := at_ |}.

(** A record created at [0], reviewed by [bob] exactly 24 hours later. *)
Definition day_pr : ActivityRecord :=
  record 3 (Some "alice") 0 ["src/app.py"] 1
    [review (Some "bob") (Some Score.DAY)].

(** Two records of equal score by two authors. *)
Definition tie : list ActivityRecord :=
  [record 4 (Some "ann") 0 ["src/app.py"] 1 [];
   record 5 (Some "bob") 0 ["src/app.py"] 1 []].

(** A record without author, with one review by nobody known and one
    review without submission time. *)
Definition anonymous : list ActivityRecord :=
  [record 6 None 0 [".github/workflows/ci.yml"] 1
     [review None (Some 10); review (Some "unknown") (Some 20);
      review (Some "carol") None]].

(** The table the one-page upstream leads to, and the state the loop is
    left in on the stale upstream. *)
Definition kept : list ActivityRecord := FetchData.kept_rows since last_page.

Definition stale_exit : LoopState :=
  {| rows := []; cursor := None; pages := 1; requests := [None];
     writes := [] |}.

(** A reading of the merge times that takes every string. *)
Definition to_datetime (col : list Z) : list (option Z) := Some <$> col.

(** Two iteration orders of a set. *)
Definition forwards (X : gset string) : list string := elements X.
Definition backwards (X : gset string) : list string := reverse (elements X).

(** The scored table of the anonymous activity. *)
Definition anonymous_scored : list Score.Out.row :=
  default [] (Score.main forwards anonymous).

End Sample.
(** ** The transport client: [post_gql] of [fetch_data.py] *)

Module Transport.

Definition MAX_RETRIES : nat := 6.

(** What one [requests.post] leads to: an exception of the library
    ([NoReply]), or a response with its status code and its body.  A body is
    not JSON ([r.json()] raises), or it is a JSON object, of which the code
    looks at whether it has the key ["errors"] and at what is under the key
    ["data"], [None] when there is no such key ([payload["data"]] raises). *)
Inductive Body (D : Type) :=
  | NotJson
  | Json (errors : bool) (data : option D).

Inductive Reply (D : Type) :=
  | NoReply
  | Response (status_code : Z) (body : Body D).

Arguments NotJson {D}.
Arguments Json {D} errors data.
Arguments NoReply {D}.
Arguments Response {D} status_code body.

(** The body of the [try]: the value returned, or [None] when an exception
    is raised, which the [except Exception] catches whatever it is. *)
Definition try_once {D : Type} (r : Reply D) : option D :=
  match r with
  | NoReply => None
  | Response status_code body =>
      if bool_decide (status_code ∈ [429; 500; 502; 503; 504]) then None
      else if negb (status_code =? 200) then None
      else match body with
           | NotJson => None
           | Json errors data => if errors then None else data
           end
  end.

(** [backoff ** attempt], with [backoff = 1.5]: the power is a binary64
    number, exactly. *)
Definition backoff_wait (attempt : nat) : spec_float :=
  Py.literal (3 ^ Z.of_nat attempt) (2 ^ Z.of_nat attempt).

(** What a call of [post_gql] comes to: the data returned, or [None] for the
    final [RuntimeError]; the number of requests posted; the arguments of
    the calls of [time.sleep], in order. *)
Record Call (D : Type) := {
  returned : option D;
  posts : nat;
  sleeps : list spec_float;
}.

Arguments returned {D} _.
Arguments posts {D} _.
Arguments sleeps {D} _.

(** The [for attempt in range(...)] loop, from [attempt] on with [left]
    attempts left; [net n] is what the [n]-th request of the call leads
    to. *)
Fixpoint attempts {D : Type} (net : nat → Reply D) (left attempt : nat)
    (slept : list spec_float) : Call D :=
  match left with
  | O => {| returned := None; posts := attempt - 1; sleeps := slept |}
  | S left' =>
      match try_once (net attempt) with
      | Some data =>
          {| returned := Some data; posts := attempt; sleeps := slept |}
      | None =>
          attempts net left' (S attempt) (slept ++ [backoff_wait attempt])
      end
  end.

Definition post_gql {D : Type} (net : nat → Reply D) : Call D :=
  attempts net MAX_RETRIES 1 [].

End Transport.

(** ** What ingestion makes of a row *)

Module Ingested.

(** A name that is there and not empty. *)
Definition named (o : option string) : Prop :=
  ∃ s, o = Some s ∧ s ≠ EmptyString.

(** A row as [fetch_data.py] builds it: a named author, lists in the three
    list-valued cells, a named reviewer in every review. *)
Definition normal (r : ActivityRecord) : Prop :=
  named (author r)
  ∧ is_Some (labels r)
  ∧ is_Some (files r)
  ∧ ∃ rvs, reviews r = Some rvs ∧ Forall (λ rv, named (reviewer rv)) rvs.

End Ingested.

(** ** More sample inputs *)

Module Cases.

Import FetchData.

(** An upstream of eleven pages of one recent record each, then an empty
    page. *)
Definition long (n : nat) (c : option string) : option PRBlock :=
  if (n <? 11)%nat
  then Some (Sample.block [Sample.raw (Z.of_nat n) (Some "alice") (Some 2000) []]
               true (Some "next"))
  else Some (Sample.block [] false None).

(** The table the long upstream leads to. *)
Definition long_df : list ActivityRecord :=
  (λ n, normalize (Sample.raw (Z.of_nat n) (Some "alice") (Some 2000) []) 2000)
    <$> seq 0 11.

(** The row of the anonymous contributor of the sample. *)
Definition unknown_row : Score.Out.row :=
  Score.final_row Sample.anonymous "unknown".

(** A network that answers 503, then a body with errors, then well. *)
Definition flaky (n : nat) : Transport.Reply nat :=
  match n with
  | 1%nat => Transport.Response 503 Transport.NotJson
  | 2%nat => Transport.Response 200 (Transport.Json true (Some 7%nat))
  | _ => Transport.Response 200 (Transport.Json false (Some 8%nat))
  end.

(** A network that always answers 401. *)
Definition denied (n : nat) : Transport.Reply nat :=
  Transport.Response 401 (Transport.Json false (Some 0%nat)).

End Cases.

(** ** The scored table, told from the activity table *)

Module Expected.

Import Score.

(** The three bullets and the fallback. *)
Definition shipped (n : nat) : string :=
  ("Shipped " ++ pretty n ++ " merged PRs (top examples linked).")%string.

Definition unblocked (n e : nat) : string :=
  ("Unblocked via " ++ pretty n ++ " reviews (" ++ pretty e ++ " early).")%string.

Definition leverage : string :=
  "Contributed leverage work (infra/tooling changes).".

Definition fallback : string :=
  "Contributed via merges and collaboration signals.".

(** The scored reviews of [k] that are early. *)
Definition early_of (k : string) (rvs : list ReviewRow) : list ReviewRow :=
  filter (λ rv, rr_early rv = true) (reviews_of k rvs).

(** The evidence on a contributor whose leadership column is [l]: what
    they shipped, what they reviewed, whether they did leverage work. *)
Definition evidence (df : list ActivityRecord) (eng : string)
    (l : spec_float) : list string :=
  let mine := records_of eng df in
  let rvs := review_rows df in
  match mine with
  | [] => []
  | _ => [shipped (length mine)]
  end
  ++ match reviews_of eng rvs with
     | [] => []
     | _ => [unblocked (length (reviews_of eng rvs)) (length (early_of eng rvs))]
     end
  ++ (if Py.flt Py.zero l then [leverage] else []).

(** An entry of [author_top_prs] and one of [reviewer_top_reviews]. *)
Definition top_pr (pr : ActivityRecord) : TopPR :=
  {| tp_pts := pr_points pr; tp_title := df_title pr; tp_url := url pr |}.

Definition top_review (rv : ReviewRow) : TopReview :=
  {| tr_pts := review_points rv; tr_pr_title := rr_pr_title rv;
     tr_pr_url := rr_pr_url rv; tr_early := rr_early rv |}.

(** What of a review, and of a record, the scores are computed from: the
    reviews without submission time, the disposition of a review, the
    number, the link, the labels, the comment count and the merge and
    update times of a record are left out. *)
Definition scored_review (rv : ReviewRecord) : ReviewRecord :=
  {| reviewer := reviewer rv; state := None; submittedAt := submittedAt rv |}.

Definition scored_part (pr : ActivityRecord) : ActivityRecord :=
  {| number := 0; title := title pr; url := EmptyString; author := author pr;
     createdAt := createdAt pr; mergedAt := 0; updatedAt := None;
     changedFiles := changedFiles pr; additions := additions pr;
     deletions := deletions pr; commentCount := 0; labels := None;
     files := files pr;
     reviews :=
       (λ rvs : list ReviewRecord,
          scored_review <$> filter (λ rv, is_Some (submittedAt rv)) rvs)
       <$> reviews pr |}.

(** A row of the review table without the link of its record. *)
Definition without_link (rv : ReviewRow) : ReviewRow :=
  {| rr_reviewer := rr_reviewer rv; rr_pr_url := EmptyString;
     rr_pr_title := rr_pr_title rv; rr_submittedAt := rr_submittedAt rv;
     rr_early := rr_early rv |}.

(** The bullets of a row: its evidence, or the fallback for want of any. *)
Definition bullets (df : list ActivityRecord) (row : Out.row) : list string :=
  match evidence df (Out.engineer row) (Out.leadership row) with
  | [] => [fallback]
  | bs => bs
  end.

(** A number that is the [int] zero or a float: what a bucket is. *)
Definition bucket (x : pynum) : Prop := x = PInt 0 ∨ ∃ f, x = PFloat f.

(** A record with other paths. *)
Definition with_files (pr : ActivityRecord) (paths : list string)
  : ActivityRecord :=
  {| number := number pr; title := title pr; url := url pr;
     author := author pr; createdAt := createdAt pr; mergedAt := mergedAt pr;
     updatedAt := updatedAt pr; changedFiles := changedFiles pr;
     additions := additions pr; deletions := deletions pr;
     commentCount := commentCount pr; labels := labels pr;
     files := Some paths; reviews := reviews pr |}.

(** A text with its ASCII capitals in lower case. *)
Fixpoint lowercase (s : string) : string :=
  match s with
  | EmptyString => EmptyString
  | String c s' => String (Re.lower c) (lowercase s')
  end.

(** The size bonus of a bucket. *)
Definition bucket_pts (size : string) : Z :=
  if String.eqb size "M" then W_SIZE_M
  else if String.eqb size "L" then W_SIZE_L
  else 0.

End Expected.

(** ** The table on its way from ingestion to scoring *)

Module Parquet.

(** [fetch_data.py] hands its table over in the file
    [data/prs_90d.parquet]: it writes it with [to_parquet], and [score.py]
    reads it with [pd.read_parquet].  Numbers and strings come back as they
    were written, a null as a null.  A list does not come back as a list: the
    cell read holds a numpy array of its elements, which is not an instance
    of [list], so that in the table as the scoring engine looks at it the
    three list-valued cells of every row are [None]. *)
Definition read_row (r : ActivityRecord) : ActivityRecord :=
  {| number := number r;
     title := title r;
     url := url r;
     author := author r;
     createdAt := createdAt r;
     mergedAt := mergedAt r;
     updatedAt := updatedAt r;
     changedFiles := changedFiles r;
     additions := additions r;
     deletions := deletions r;
     commentCount := commentCount r;
     labels := None;
     files := None;
     reviews := None |}.

Definition read_parquet (df : list ActivityRecord) : list ActivityRecord :=
  read_row <$> df.

(** The two programs, one after the other: the scored table of what a run
    of the ingestion pipeline has saved, [None] when the run saves nothing
    or the engine fails. *)
Definition scored (since : Z)
    (post_gql : nat → option string → option FetchData.PRBlock)
    (to_datetime : list Z → list (option Z)) (fuel : nat)
    (iter : gset string → list string) : option (list Score.Out.row) :=
  match FetchData.outcome (FetchData.main since post_gql to_datetime fuel) with
  | FetchData.Saved df => Score.main iter (read_parquet df)
  | _ => None
  end.

End Parquet.

(** ** Sample upstreams with reviews, and one that fails *)

Module Upstream.

Import FetchData.

Definition signed (who : option RawAuthor) (at_ : option Z) : RawReview :=
  {| rv_author := who; rv_state := Some "APPROVED"; rv_submittedAt := at_ |}.

(** A page with one recent record by [alice], created at [0], reviewed by
    [bob] at [50] and, at [60], in a review that has no author. *)
Definition reviewed_page : PRBlock :=
  Sample.block
    [Sample.raw 7 (Some "alice") (Some 2000)
       [signed (Some {| login := Some "bob" |}) (Some 50);
        signed None (Some 60)]]
    false None.

Definition reviewed (n : nat) (c : option string) : option PRBlock :=
  match n with
  | O => Some reviewed_page
  | _ => Some (Sample.block [] false None)
  end.

(** The table that upstream leads to. *)
Definition reviewed_df : list ActivityRecord :=
  kept_rows Sample.since reviewed_page.

(** Pages of one recent record each, the transport failing for good on the
    eleventh request. *)
Definition cut (n : nat) (c : option string) : option PRBlock :=
  if (n <? 10)%nat
  then Some (Sample.block [Sample.raw (Z.of_nat n) (Some "alice") (Some 2000) []]
               true (Some "next"))
  else None.

(** The checkpoint written after the tenth of those pages. *)
Definition cut_checkpoint : list ActivityRecord :=
  (λ n, normalize (Sample.raw (Z.of_nat n) (Some "alice") (Some 2000) []) 2000)
    <$> seq 0 10.

(** A reading of the merge times that does not take the time [3000]. *)
Definition coerce (col : list Z) : list (option Z) :=
  (λ t, if t =? 3000 then None else Some t) <$> col.

(** A page of three recent records, the second one merged at [3000]. *)
Definition three_page : PRBlock :=
  Sample.block
    [Sample.raw 1 (Some "alice") (Some 2000) [];
     Sample.raw 2 (Some "bob") (Some 3000) [];
     Sample.raw 3 (Some "carol") (Some 4000) []]
    false None.

Definition three (n : nat) (c : option string) : option PRBlock :=
  match n with
  | O => Some three_page
  | _ => Some (Sample.block [] false None)
  end.

End Upstream.

(** ** Properties of the ingestion pipeline *)

Section FetchFacts.

Import FetchData.

Variable SINCE_DT : Z.
Variable post_gql : nat → option string → option PRBlock.
Variable to_datetime : list Z → list (option Z).

Local Abbreviation keep_pr := (keep_pr SINCE_DT).
Local Abbreviation kept_rows := (kept_rows SINCE_DT).
Local Abbreviation kept_this_page := (kept_this_page SINCE_DT).
Local Abbreviation fetch_loop := (fetch_loop SINCE_DT post_gql).
Local Abbreviation in_window := (in_window SINCE_DT).
Local Abbreviation final_filter := (final_filter SINCE_DT to_datetime).
Local Abbreviation main := (main SINCE_DT post_gql to_datetime).

Lemma keep_pr_in_window pr r : keep_pr pr = Some r → in_window r.
Proof.
  unfold FetchData.keep_pr, FetchData.in_window.
  destruct (pr_mergedAt pr) as [m|]; [|done].
  destruct (Z.ltb_spec m SINCE_DT); [done|].
  intros [= <-]. simpl. lia.
Qed.

Lemma kept_rows_in_window blk : Forall in_window (kept_rows blk).
Proof.
  apply Forall_forall. intros r Hr.
  apply list_elem_of_omap in Hr as (pr & _ & Hk).
  by eapply keep_pr_in_window.
Qed.

(** A record that fails the window test is dropped; one that passes it is
    kept, in the order of the page, whatever came before it. *)
Lemma kept_rows_cons blk pr l more :
  nodes blk = Some (pr :: l) →
  kept_rows blk =
    match keep_pr pr with
    | Some r => r :: kept_rows {| nodes := Some l; pageInfo := more |}
    | None => kept_rows {| nodes := Some l; pageInfo := more |}
    end.
Proof.
  unfold FetchData.kept_rows. intros ->. simpl.
  by destruct (keep_pr pr).
Qed.

Lemma fetch_loop_window fuel st :
  window_ok SINCE_DT st → window_ok SINCE_DT (exit_state (fetch_loop fuel st)).
Proof.
  revert st. induction fuel as [|fuel IH]; intros st [Hr Hw]; [done|].
  simpl. destruct (post_gql (pages st) (cursor st)) as [blk|]; [|done].
  assert (Forall in_window (rows st ++ kept_rows blk)) as Hr'
    by (apply Forall_app; split; [done | apply kept_rows_in_window]).
  assert (Forall (Forall in_window)
            (if (S (pages st) mod 10 =? 0)%nat
             then writes st ++ [rows st ++ kept_rows blk] else writes st)) as Hw'.
  { destruct (_ =? _)%nat; [|done].
    apply Forall_app; split; [done|]. by apply Forall_singleton. }
  destruct (kept_this_page blk =? 0)%nat; [done|].
  by apply IH.
Qed.

(** The final filter only takes rows away: what it leaves is a sub-list of
    the frame, whatever the second reading of the merge times gives. *)
Lemma mask_rows_sublist df dts : mask_rows SINCE_DT df dts `sublist_of` df.
Proof.
  revert dts. induction df as [|r df IH]; intros dts; [done|].
  destruct dts as [|dt dts]; simpl; [apply sublist_nil_l|].
  destruct (match dt with Some t => SINCE_DT <=? t | None => false end).
  - by apply sublist_skip.
  - by apply sublist_cons.
Qed.

Lemma final_filter_sublist df : final_filter df `sublist_of` df.
Proof. apply mask_rows_sublist. Qed.

Lemma final_filter_in_window df :
  Forall in_window df → Forall in_window (final_filter df).
Proof.
  intros Hdf. apply Forall_forall. intros r Hr.
  eapply Forall_forall in Hdf; [done|].
  eapply elem_of_sublist; [done|]. apply final_filter_sublist.
Qed.

(** Where the second reading takes every merge time, and gives the time the
    loop has read, the final filter changes nothing on the rows the loop
    collects. *)
Lemma mask_rows_id df :
  Forall in_window df → mask_rows SINCE_DT df (Some <$> (mergedAt <$> df)) = df.
Proof.
  induction 1 as [|r df Hr _ IH]; [done|].
  rewrite !fmap_cons. cbn [mask_rows]. rewrite IH.
  unfold FetchData.in_window in Hr.
  by destruct (Z.leb_spec SINCE_DT (mergedAt r)); [|lia].
Qed.

(** C1: every record of the table the pipeline saves, as of every table it
    writes on the way, was merged inside the window. *)
Theorem saved_table_in_window (fuel : nat) (df : list ActivityRecord) :
  outcome (main fuel) = Saved df →
  (∀ r, r ∈ df → SINCE_DT ≤ mergedAt r)
  ∧ (∀ t r, t ∈ written (main fuel) → r ∈ t →
       SINCE_DT ≤ mergedAt r).
Proof.
  unfold FetchData.main.
  pose proof (fetch_loop_window fuel init) as Hinv.
  destruct (fetch_loop fuel init) as [st|st|st]; simpl; [done| |done].
  destruct Hinv as [Hr Hw]; [by split; simpl; constructor|]. simpl in *.
  destruct (rows st) as [|r0 rs] eqn:Hrows; simpl; [done|].
  intros [= <-]. split.
  - intros r Hin. revert r Hin.
    by apply Forall_forall, final_filter_in_window.
  - intros t r [Ht| ->%list_elem_of_singleton]%elem_of_app Hin.
    + eapply Forall_forall in Hw; [|done].
      eapply Forall_forall in Hw; [|done]. done.
    + revert r Hin. by apply Forall_forall, final_filter_in_window.
Qed.

Lemma fetch_loop_trail (blks : list PRBlock) :
  ∀ fuel st last,
    trail post_gql (S (length blks)) (pages st) (cursor st) = blks ++ [last] →
    Forall (λ b, kept_this_page b ≠ 0%nat) blks →
    kept_this_page last = 0%nat →
    (length blks < fuel)%nat →
    ∃ st', fetch_loop fuel st = Break st'
      ∧ requests st' =
          requests st ++ cursor st :: ((λ b, endCursor (pageInfo b)) <$> blks)
      ∧ rows st' = rows st ++ (blks ≫= kept_rows)
      ∧ pages st' = (pages st + S (length blks))%nat.
Proof.
  induction blks as [|b blks IH]; intros fuel st last Htrail Hkept Hlast Hfuel;
    (destruct fuel as [|fuel]; [simpl in Hfuel; lia|]);
    cbn [trail length] in Htrail; cbn [FetchData.fetch_loop];
    destruct (post_gql (pages st) (cursor st)) as [blk|] eqn:Hpost;
    try discriminate Htrail.
  - injection Htrail as ->. rewrite Hlast. simpl.
    eexists; split; [done|]. simpl.
    unfold FetchData.kept_this_page in Hlast.
    apply nil_length_inv in Hlast. rewrite Hlast, !app_nil_r.
    repeat split; try done; lia.
  - simpl in Htrail. injection Htrail as -> Htrail.
    apply Forall_cons in Hkept as [Hb Hkept].
    destruct (Nat.eqb_spec (kept_this_page b) 0) as [|_]; [done|].
    set (st2 := {| rows := rows st ++ kept_rows b;
                   cursor := endCursor (pageInfo b); pages := S (pages st);
                   requests := requests st ++ [cursor st];
                   writes := if (S (pages st) mod 10 =? 0)%nat
                             then writes st ++ [rows st ++ kept_rows b]
                             else writes st |}).
    destruct (IH fuel st2 last) as (st' & Hloop & Hreq & Hrows & Hpages);
      [done | done | done | simpl in Hfuel; lia |].
    exists st'. split; [done|]. simpl in *.
    rewrite Hreq, Hrows, Hpages, <-!app_assoc. simpl.
    repeat split; try done; lia.
Qed.

(** C3: the loop stops at the first page that yields no in-window record,
    and only there: if the [k+1]-th page on the trail of end cursors is the
    first one to keep nothing, the loop sends exactly [k+1] requests, each
    later one with the end cursor of the page before, whatever the pages say
    about further pages, and it collects what the first [k] pages keep. *)
Theorem stops_at_first_page_keeping_nothing
    (blks : list PRBlock) (last : PRBlock) (fuel : nat) :
  trail post_gql (S (length blks)) 0 None = blks ++ [last] →
  Forall (λ b, kept_this_page b ≠ 0%nat) blks →
  kept_this_page last = 0%nat →
  (length blks < fuel)%nat →
  ∃ st, fetch_loop fuel init = Break st
    ∧ requests st = None :: ((λ b, endCursor (pageInfo b)) <$> blks)
    ∧ rows st = blks ≫= kept_rows
    ∧ pages st = S (length blks).
Proof.
  intros Htrail Hkept Hlast Hfuel.
  destruct (fetch_loop_trail blks fuel init last) as (st & ? & ? & ? & ?);
    try done.
  exists st. simpl in *. repeat split; done.
Qed.

(** The loop does not read [hasNextPage]: an upstream that answers the
    same pages with other flags is walked in the same way. *)
Lemma next_page_flag_is_not_read (g : bool → bool) (fuel : nat) :
  ∀ st,
    FetchData.fetch_loop SINCE_DT (λ n c, with_flag g <$> post_gql n c) fuel st
    = fetch_loop fuel st.
Proof.
  induction fuel as [|fuel IH]; intros st; [done|].
  simpl. destruct (post_gql (pages st) (cursor st)) as [blk|]; [|done].
  simpl. change (kept_this_page (with_flag g blk)) with (kept_this_page blk).
  change (kept_rows (with_flag g blk)) with (kept_rows blk).
  destruct (kept_this_page blk =? 0)%nat; [done|]. apply IH.
Qed.

(** Once a row is collected, no state and no checkpoint is empty. *)
Lemma fetch_loop_nonempty fuel st :
  rows st ≠ [] → Forall (λ t, t ≠ []) (writes st) →
  rows (exit_state (fetch_loop fuel st)) ≠ []
  ∧ Forall (λ t, t ≠ []) (writes (exit_state (fetch_loop fuel st))).
Proof.
  revert st. induction fuel as [|fuel IH]; intros st Hr Hw; [done|].
  simpl. destruct (post_gql (pages st) (cursor st)) as [blk|]; [|done].
  assert (rows st ++ kept_rows blk ≠ []) as Hr'
    by (destruct (rows st); [done | discriminate]).
  assert (Forall (λ t, t ≠ [])
            (if (S (pages st) mod 10 =? 0)%nat
             then writes st ++ [rows st ++ kept_rows blk] else writes st)) as Hw'.
  { destruct (_ =? _)%nat; [|done].
    apply Forall_app; split; [done|]. by apply Forall_singleton. }
  destruct (kept_this_page blk =? 0)%nat; [done|].
  by apply IH.
Qed.

(** A loop that ends with nothing collected has seen one page only. *)
Lemma break_with_no_rows fuel st :
  fetch_loop fuel init = Break st → rows st = [] →
  requests st = [None] ∧ writes st = [].
Proof.
  destruct fuel as [|fuel]; [done|]. simpl.
  destruct (post_gql 0 None) as [blk|]; [|done].
  destruct (Nat.eqb_spec (kept_this_page blk) 0) as [Hz|Hnz].
  - by intros [= <-].
  - intros Hloop Hrows.
    destruct (fetch_loop_nonempty fuel
                {| rows := kept_rows blk; cursor := endCursor (pageInfo blk);
                   pages := 1; requests := [None]; writes := [] |}) as [Hne _].
    + simpl. intros Hnil. apply Hnz. unfold FetchData.kept_this_page.
      by rewrite Hnil.
    + done.
    + rewrite Hloop in Hne. done.
Qed.

(** When the loop ends with no record inside the window, the pipeline
    ends in the fatal exit, having sent one request and written no table,
    neither a checkpoint nor a final one. *)
Lemma empty_break_is_fatal (fuel : nat) (st : LoopState) :
  fetch_loop fuel init = Break st → rows st = [] →
  main fuel =
    {| outcome := NoPRsCollected; sent := [None]; written := [] |}.
Proof.
  intros Hloop Hrows.
  destruct (break_with_no_rows fuel st Hloop Hrows) as [Hreq Hw].
  unfold FetchData.main. by rewrite Hloop, Hrows, Hreq, Hw.
Qed.

(** The fatal exit is reached: a first page that keeps nothing ends the run. *)
Lemma stale_first_page_is_fatal (blk : PRBlock) (fuel : nat) :
  post_gql 0 None = Some blk → kept_rows blk = [] → (0 < fuel)%nat →
  main fuel =
    {| outcome := NoPRsCollected; sent := [None]; written := [] |}.
Proof.
  intros Hpost Hkept Hfuel. destruct fuel as [|fuel]; [lia|].
  unfold FetchData.main. simpl. rewrite Hpost. unfold FetchData.kept_this_page.
  by rewrite Hkept.
Qed.

(** No checkpoint is empty: the first one is written after the tenth page,
    which the loop gets to only with rows from the pages before. *)
Lemma checkpoints_nonempty (fuel : nat) :
  Forall (λ t, t ≠ []) (writes (exit_state (fetch_loop fuel init))).
Proof.
  destruct fuel as [|fuel]; [done|].
  simpl. destruct (post_gql 0 None) as [blk|]; [|done].
  destruct (Nat.eqb_spec (kept_this_page blk) 0) as [Hz|Hnz]; [done|].
  apply fetch_loop_nonempty; [|done].
  simpl. intros Hnil. apply Hnz. unfold FetchData.kept_this_page.
  by rewrite Hnil.
Qed.

(** However the loop is left, it has written one checkpoint for every
    tenth page answered, each one a prefix of the rows collected. *)
Lemma loop_checkpoints (fuel : nat) :
  ∀ st,
    length (writes st) = (pages st / 10)%nat →
    Forall (λ t, t `prefix_of` rows st) (writes st) →
    length (writes (exit_state (fetch_loop fuel st)))
      = (pages (exit_state (fetch_loop fuel st)) / 10)%nat
    ∧ Forall (λ t, t `prefix_of` rows (exit_state (fetch_loop fuel st)))
        (writes (exit_state (fetch_loop fuel st))).
Proof.
  induction fuel as [|fuel IH]; intros st Hlen Hpre; [done|].
  simpl. destruct (post_gql (pages st) (cursor st)) as [blk|]; [|done].
  set (rows' := rows st ++ kept_rows blk).
  set (writes' := if (S (pages st) mod 10 =? 0)%nat
                  then writes st ++ [rows'] else writes st).
  assert (length writes' = (S (pages st) / 10)%nat) as Hlen'.
  { subst writes'.
    pose proof (Nat.div_mod_eq (pages st) 10) as H1.
    pose proof (Nat.div_mod_eq (S (pages st)) 10) as H2.
    pose proof (Nat.mod_upper_bound (pages st) 10) as H3.
    pose proof (Nat.mod_upper_bound (S (pages st)) 10) as H4.
    destruct (Nat.eqb_spec (S (pages st) mod 10) 0) as [Hz|Hnz].
    - rewrite length_app. cbn [length]. lia.
    - lia. }
  assert (Forall (λ t, t `prefix_of` rows') writes') as Hpre'.
  { subst writes'. assert (Forall (λ t, t `prefix_of` rows') (writes st)).
    { eapply Forall_impl; [done|]. intros t Ht. by apply prefix_app_r. }
    destruct (_ =? _)%nat; [|done].
    apply Forall_app; split; [done|]. by apply Forall_singleton. }
  destruct (FetchData.kept_this_page SINCE_DT blk =? 0)%nat; [done|].
  by apply IH.
Qed.

(** What a run has written is what its loop has written, and then the
    final table if it saves one. *)
Lemma written_main (fuel : nat) :
  written (main fuel) =
    writes (exit_state (fetch_loop fuel init))
    ++ match outcome (main fuel) with Saved df => [df] | _ => [] end.
Proof.
  unfold FetchData.main.
  destruct (fetch_loop fuel init) as [st|st|st]; simpl;
    try by rewrite app_nil_r.
  destruct (rows st); simpl; [by rewrite app_nil_r | done].
Qed.

(** C8: a run of the pipeline in which the loop ends with no record inside
    the window ends in the fatal exit, after one request and with no table
    written, and the fatal exit is taken in no other run.  In every run,
    what is written before the final table are the checkpoints: one for
    every tenth page answered, none of them empty, each one a prefix of the
    rows collected; they are all that a run which fails on the transport
    has written. *)
Theorem no_rows_is_fatal_and_checkpoints_stay (fuel : nat) :
  (∀ st, fetch_loop fuel init = Break st → rows st = [] →
     main fuel =
       {| outcome := NoPRsCollected; sent := [None]; written := [] |})
  ∧ (outcome (main fuel) = NoPRsCollected →
       ∃ st, fetch_loop fuel init = Break st ∧ rows st = []
         ∧ sent (main fuel) = [None] ∧ written (main fuel) = [])
  ∧ (outcome (main fuel) = TransportFailure →
       ∃ st, fetch_loop fuel init = Raised st
         ∧ written (main fuel) = writes st)
  ∧ written (main fuel) =
      writes (exit_state (fetch_loop fuel init))
      ++ match outcome (main fuel) with Saved df => [df] | _ => [] end
  ∧ length (writes (exit_state (fetch_loop fuel init)))
      = (pages (exit_state (fetch_loop fuel init)) / 10)%nat
  ∧ Forall (λ t, t ≠ [] ∧ t `prefix_of` rows (exit_state (fetch_loop fuel init)))
      (writes (exit_state (fetch_loop fuel init))).
Proof.
  split; [apply empty_break_is_fatal|].
  split.
  { intros Hout. unfold FetchData.main in Hout.
    destruct (fetch_loop fuel init) as [st|st|st] eqn:Hloop; try done.
    destruct (rows st) as [|r0 rs] eqn:Hrows; [|done].
    exists st. split; [done|]. split; [done|].
    by rewrite (empty_break_is_fatal fuel st Hloop Hrows). }
  split.
  { intros Hout. unfold FetchData.main in *.
    destruct (fetch_loop fuel init) as [st|st|st] eqn:Hloop; try done.
    - by exists st.
    - by destruct (rows st). }
  split; [apply written_main|].
  destruct (loop_checkpoints fuel init) as [Hlen Hpre]; [done..|].
  split; [done|].
  pose proof (checkpoints_nonempty fuel) as Hne.
  apply Forall_forall. intros t Ht. split.
  - eapply Forall_forall in Hne; done.
  - eapply Forall_forall in Hpre; done.
Qed.

(** Ingestion flattens every embedded review, in order, and passes its
    submission time through, present or not. *)
Lemma review_flat_keeps_all (rvs : list RawReview) :
  length (review_flat rvs) = length rvs
  ∧ ∀ i rv, rvs !! i = Some rv →
      review_flat rvs !! i =
        Some {| reviewer := Some (login_or_unknown (rv_author rv));
                state := rv_state rv;
                submittedAt := rv_submittedAt rv |}.
Proof.
  unfold review_flat. split; [apply length_fmap|].
  intros i rv Hi. by rewrite list_lookup_fmap, Hi.
Qed.

(** A review whose author or login is missing is given the reviewer
    ["unknown"], as a record whose author is missing is given that author. *)
Lemma missing_login_is_unknown (a : option RawAuthor) :
  a = None ∨ a = Some {| login := None |} →
  login_or_unknown a = "unknown".
Proof. by intros [-> | ->]. Qed.

End FetchFacts.

(** ** Facts on binary64 numbers *)

Section Binary64.

(** Shifting a mantissa right by fewer places than it has digits leaves a
    positive mantissa, with that many digits fewer. *)
Lemma iter_shr_1_pos (p : positive) :
  ∀ mrs m, shr_m mrs = Zpos m → Zpos p < Zpos (digits2_pos m) →
    ∃ m', shr_m (SpecFloat.iter_pos shr_1 p mrs) = Zpos m'
          ∧ Zpos (digits2_pos m') = Zpos (digits2_pos m) - Zpos p.
Proof.
  assert (∀ mrs m, shr_m mrs = Zpos m → 1 < Zpos (digits2_pos m) →
            ∃ m', shr_m (shr_1 mrs) = Zpos m'
                  ∧ Zpos (digits2_pos m') = Zpos (digits2_pos m) - 1) as Hone.
  { intros [mm r s] m Hm Hd. simpl in Hm. subst mm.
    destruct m as [q|q|]; simpl in *.
    - exists q. split; [done | lia].
    - exists q. split; [done | lia].
    - lia. }
  induction p as [p IH|p IH|]; intros mrs m Hm Hd; simpl.
  - destruct (Hone mrs m Hm) as (m1 & Hm1 & Hd1); [lia|].
    destruct (IH _ m1 Hm1) as (m2 & Hm2 & Hd2); [lia|].
    destruct (IH _ m2 Hm2) as (m3 & Hm3 & Hd3); [lia|].
    exists m3. split; [done | lia].
  - destruct (IH _ m Hm) as (m2 & Hm2 & Hd2); [lia|].
    destruct (IH _ m2 Hm2) as (m3 & Hm3 & Hd3); [lia|].
    exists m3. split; [done | lia].
  - destruct (Hone mrs m Hm) as (m1 & Hm1 & Hd1); [lia|].
    exists m1. split; [done | lia].
Qed.

Lemma shr_fexp_pos (m : positive) (e : Z) (l : location) :
  emin Py.prec Py.emax ≤ e →
  ∃ mrs' m' e', shr_fexp Py.prec Py.emax (Zpos m) e l = (mrs', e')
                ∧ shr_m mrs' = Zpos m' ∧ e ≤ e'.
Proof.
  intros He. unfold shr_fexp, shr.
  assert (shr_m (shr_record_of_loc (Zpos m) l) = Zpos m) as Hm
    by (by destruct l as [|[]]).
  set (n := fexp Py.prec Py.emax (Zdigits2 (Z.pos m) + e) - e).
  assert (n < Zpos (digits2_pos m)) as Hn.
  { subst n. unfold fexp, emin, Py.prec, Py.emax in *. simpl Zdigits2. lia. }
  destruct n as [|p|p] eqn:Hp.
  - eexists _, m, e. repeat split; [done | lia].
  - destruct (iter_shr_1_pos p _ m Hm Hn) as (m' & Hm' & _).
    eexists _, m', _. repeat split; [done | lia].
  - eexists _, m, e. repeat split; [done | lia].
Qed.

(** Rounding a positive mantissa whose exponent is not below the least one
    gives a finite number or an infinity of the sign asked for. *)
Lemma binary_round_aux_sign (sx : bool) (m : positive) (e : Z) (l : location) :
  emin Py.prec Py.emax ≤ e →
  (∃ m' e', binary_round_aux Py.prec Py.emax sx (Zpos m) e l
            = S754_finite sx m' e')
  ∨ binary_round_aux Py.prec Py.emax sx (Zpos m) e l = S754_infinity sx.
Proof.
  intros He. unfold binary_round_aux.
  destruct (shr_fexp_pos m e l He) as (mrs1 & m1 & e1 & -> & Hm1 & He1).
  rewrite Hm1.
  assert (∃ m2, round_nearest_even (Zpos m1) (loc_of_shr_record mrs1)
                = Zpos m2) as [m2 ->].
  { unfold round_nearest_even.
    destruct (loc_of_shr_record mrs1) as [|[]]; try destruct (Z.even _);
      simpl; eauto. }
  destruct (shr_fexp_pos m2 e1 loc_Exact) as (mrs3 & m3 & e3 & -> & -> & _);
    [lia|].
  destruct (e3 <=? Py.emax - Py.prec)%Z; eauto.
Qed.

(** [float(z)] of a positive [int] is positive. *)
Lemma float_of_int_pos (z : Z) :
  0 < z → Py.flt Py.zero (Py.float_of_int z) = true.
Proof.
  destruct z as [|p|p]; [lia | intros _ | lia].
  unfold Py.float_of_int, binary_normalize, binary_round.
  destruct (shl_align p 0 _) as [mz ez] eqn:Hal.
  assert (emin Py.prec Py.emax ≤ ez) as Hez.
  { unfold shl_align in Hal.
    destruct (fexp Py.prec Py.emax (Z.pos (digits2_pos p) + 0) - 0) eqn:Hd;
      injection Hal as <- <-;
      unfold fexp, emin, Py.prec, Py.emax in *; lia. }
  destruct (binary_round_aux_sign false mz ez loc_Exact Hez)
    as [(m' & e' & ->) | ->]; done.
Qed.

(** The literals of the scoring code, by their mantissa and exponent:
    1.3 is [0x1.4cccccccccccdp+0] and 16.9 is [0x1.0e66666666666p+4]. *)
Lemma literals :
  Py.literal 13 10 = S754_finite false 5854679515581645 (-52)
  ∧ Py.literal 125 100 = S754_finite false 5629499534213120 (-52)
  ∧ Py.literal 1 1 = S754_finite false 4503599627370496 (-52)
  ∧ Py.literal 169 10 = S754_finite false 4756927106410086 (-48)
  ∧ Py.literal 26 1 = S754_finite false 7318349394477056 (-48).
Proof. repeat split; by vm_compute. Qed.

End Binary64.

(** ** Properties of the scoring engine *)

Section ScoreFacts.

Import Score.

(** *** The accumulators, key by key *)

Lemma reviewer_scores_fold (rvs : list ReviewRow) :
  ∀ acc k,
    reviewer_scores (foldl score_review acc rvs) !! k =
      match reviews_of k rvs with
      | [] => reviewer_scores acc !! k
      | mine => Some (default 0 (reviewer_scores acc !! k)
                      + foldr Z.add 0 (review_points <$> mine))
      end.
Proof.
  unfold reviews_of.
  induction rvs as [|rv rvs IH]; intros acc k; [done|].
  simpl. rewrite IH, filter_cons. simpl.
  destruct (decide (rr_reviewer rv = k)) as [->|Hne].
  - rewrite lookup_insert_eq. simpl.
    destruct (filter _ rvs); simpl; f_equal; lia.
  - by rewrite lookup_insert_ne.
Qed.

Lemma reviewer_scores_total (rvs : list ReviewRow) (k : string) :
  reviewer_scores (score_reviews rvs) !! k =
    match reviews_of k rvs with
    | [] => None
    | _ => Some (review_total k rvs)
    end.
Proof.
  unfold score_reviews, review_total. rewrite reviewer_scores_fold. simpl.
  rewrite lookup_empty. by destruct (reviews_of k rvs).
Qed.

Lemma review_points_pos (rv : ReviewRow) : 2 ≤ review_points rv.
Proof. unfold review_points, W_REVIEW, W_REVIEW_EARLY. destruct (rr_early rv); lia. Qed.

Lemma review_total_pos (k : string) (rvs : list ReviewRow) :
  reviews_of k rvs ≠ [] → 0 < review_total k rvs.
Proof.
  unfold review_total. destruct (reviews_of k rvs) as [|rv l]; [done|].
  intros _. rewrite fmap_cons. cbn [foldr].
  pose proof (review_points_pos rv).
  assert (0 ≤ foldr Z.add 0 (review_points <$> l)); [|lia].
  induction l as [|x l IH]; [done|].
  rewrite fmap_cons. cbn [foldr]. pose proof (review_points_pos x). lia.
Qed.

Lemma reviews_of_nil (k : string) (rvs : list ReviewRow) :
  reviews_of k rvs = [] ↔ k ∉ rr_reviewer <$> rvs.
Proof.
  unfold reviews_of. rewrite list_elem_of_fmap. split.
  - intros Hnil (rv & -> & Hin).
    assert (rv ∈ filter (λ x, rr_reviewer x = rr_reviewer rv) rvs) as Hf
      by (by apply list_elem_of_filter).
    rewrite Hnil in Hf. by apply elem_of_nil in Hf.
  - intros Hno. destruct (filter _ rvs) as [|rv l] eqn:Hf; [done|].
    assert (rv ∈ filter (λ x, rr_reviewer x = k) rvs) as Hin
      by (rewrite Hf; left).
    apply list_elem_of_filter in Hin as [<- Hin]. destruct Hno; eauto.
Qed.

Lemma dom_reviewer_scores (df : list ActivityRecord) :
  dom (reviewer_scores (score_reviews (review_rows df))) = reviewers df.
Proof.
  apply set_eq. intros k. unfold reviewers.
  rewrite elem_of_dom, reviewer_scores_total, elem_of_list_to_set.
  pose proof (reviews_of_nil k (review_rows df)) as Hnil.
  destruct (reviews_of k (review_rows df)) as [|rv l].
  - split; [by intros [? ?] | intros Hin]. by apply Hnil in Hin.
  - split; [intros _ | by eauto].
    destruct (decide (k ∈ rr_reviewer <$> review_rows df)) as [|Hno]; [done|].
    by apply Hnil in Hno.
Qed.

(** One record of [k] added to the buckets of [k]. *)
Lemma breakdown_fold (df : list ActivityRecord) :
  ∀ acc k,
    author_breakdown (foldl score_pr acc df) !! k =
      match records_of k df with
      | [] => author_breakdown acc !! k
      | mine =>
          Some (foldl (λ bd pr, attribute (is_infra_or_tooling (df_files pr))
                                  (pr_points pr) bd)
                  (default empty_breakdown (author_breakdown acc !! k)) mine)
      end.
Proof.
  unfold records_of.
  induction df as [|pr df IH]; intros acc k; [done|].
  simpl. rewrite IH, filter_cons. simpl.
  destruct (decide (df_author pr = k)) as [->|Hne].
  - rewrite lookup_insert_eq. simpl. by destruct (filter _ df).
  - by rewrite lookup_insert_ne.
Qed.

Lemma author_scores_dom_fold (df : list ActivityRecord) :
  ∀ acc,
    dom (author_scores (foldl score_pr acc df)) =
      dom (author_scores acc) ∪ list_to_set (df_author <$> df).
Proof.
  induction df as [|pr df IH]; intros acc; simpl.
  - by rewrite (right_id_L ∅ (∪)).
  - rewrite IH. simpl. rewrite dom_insert_L.
    by rewrite (comm_L (∪) {[df_author pr]}), <-(assoc_L (∪)).
Qed.

Lemma dom_author_scores (df : list ActivityRecord) :
  dom (author_scores (score_prs df)) = authors df.
Proof.
  unfold score_prs, authors. rewrite author_scores_dom_fold. simpl.
  by rewrite dom_empty_L, (left_id_L ∅ (∪)).
Qed.

Lemma records_of_nil (k : string) (df : list ActivityRecord) :
  records_of k df = [] ↔ k ∉ authors df.
Proof.
  unfold records_of, authors.
  rewrite elem_of_list_to_set, list_elem_of_fmap. split.
  - intros Hnil (pr & -> & Hin).
    assert (pr ∈ filter (λ x, df_author x = df_author pr) df) as Hf
      by (by apply list_elem_of_filter).
    rewrite Hnil in Hf. by apply elem_of_nil in Hf.
  - intros Hno. destruct (filter _ df) as [|pr l] eqn:Hf; [done|].
    assert (pr ∈ filter (λ x, df_author x = k) df) as Hin
      by (rewrite Hf; left).
    apply list_elem_of_filter in Hin as [<- Hin]. destruct Hno; eauto.
Qed.

Lemma buckets_fold (mine : list ActivityRecord) :
  ∀ bd,
    let bd' := foldl (λ bd pr, attribute (is_infra_or_tooling (df_files pr))
                                 (pr_points pr) bd) bd mine in
    bd_delivery bd' =
      foldl Py.add (bd_delivery bd)
        (pr_points <$>
           filter (λ pr, is_infra_or_tooling (df_files pr) = false) mine)
    ∧ bd_leadership bd' =
      foldl Py.add (bd_leadership bd)
        (pr_points <$>
           filter (λ pr, is_infra_or_tooling (df_files pr) = true) mine).
Proof.
  induction mine as [|pr mine IH]; intros bd; [done|].
  simpl. rewrite !filter_cons.
  destruct (IH (attribute (is_infra_or_tooling (df_files pr)) (pr_points pr) bd))
    as [Hd Hl].
  rewrite Hd, Hl. unfold attribute.
  destruct (is_infra_or_tooling (df_files pr)); simpl; done.
Qed.

(** The buckets of a contributor at the end of the loop over the table. *)
Lemma breakdown_total (df : list ActivityRecord) (k : string) :
  match author_breakdown (score_prs df) !! k with
  | Some bd =>
      k ∈ authors df
      ∧ bd_delivery bd = delivery_of k df
      ∧ bd_leadership bd = leadership_of k df
  | None => k ∉ authors df
  end.
Proof.
  unfold score_prs. rewrite breakdown_fold. simpl. rewrite lookup_empty.
  pose proof (records_of_nil k df) as Hnil.
  unfold delivery_of, leadership_of, sum_points.
  destruct (records_of k df) as [|pr mine] eqn:Hrec.
  - by apply Hnil.
  - split.
    + destruct (decide (k ∈ authors df)) as [|Hno]; [done|].
      by apply Hnil in Hno.
    + apply (buckets_fold (pr :: mine) empty_breakdown).
Qed.

(** The row of a contributor, before the sort. *)
Lemma engineer_row_total (df : list ActivityRecord) (eng : string) :
  let row := engineer_row (score_prs df) (score_reviews (review_rows df)) eng in
  Out.engineer row = eng
  ∧ Out.delivery row = Py.float (delivery_of eng df)
  ∧ Out.leadership row = Py.float (leadership_of eng df)
  ∧ Out.reviews row = Py.float (PInt (review_total eng (review_rows df))).
Proof.
  unfold engineer_row. simpl. split; [done|].
  pose proof (breakdown_total df eng) as Hbd.
  pose proof (records_of_nil eng df) as Hnil.
  rewrite reviewer_scores_total.
  assert (Py.float (match reviews_of eng (review_rows df) with
                    | [] => PFloat Py.zero
                    | _ => PInt (review_total eng (review_rows df))
                    end)
          = Py.float (PInt (review_total eng (review_rows df)))) as Hrv.
  { unfold review_total. by destruct (reviews_of eng (review_rows df)). }
  destruct (author_breakdown (score_prs df) !! eng) as [bd|].
  - destruct Hbd as (_ & -> & ->). repeat split.
    by destruct (reviews_of eng (review_rows df)).
  - apply Hnil in Hbd. unfold delivery_of, leadership_of. rewrite Hbd.
    repeat split. by destruct (reviews_of eng (review_rows df)).
Qed.

(** *** The sort *)

Lemma insert_desc_perm (r : Out.row) (l : list Out.row) :
  insert_desc r l ≡ₚ r :: l.
Proof.
  induction l as [|x l IH]; simpl; [done|].
  destruct (Py.flt _ _); [|done].
  rewrite IH. apply Permutation_swap.
Qed.

Lemma sort_values_perm (l : list Out.row) : sort_values l ≡ₚ l.
Proof.
  induction l as [|x l IH]; simpl; [done|].
  by rewrite insert_desc_perm, IH.
Qed.

Lemma flt_asym (x y : spec_float) : Py.flt x y = true → Py.flt y x = false.
Proof.
  unfold Py.flt, SFltb.
  destruct x as [[]|[]| |[] m1 e1], y as [[]|[]| |[] m2 e2]; simpl; try done;
    rewrite (Z.compare_antisym e1 e2);
    pose proof (Pos.compare_cont_antisym m1 m2 Eq) as Hm; simpl in Hm;
    rewrite <-Hm;
    destruct (e1 ?= e2); simpl; try done;
    destruct (Pos.compare_cont Eq m1 m2); done.
Qed.

Lemma insert_desc_sorted (r : Out.row) (l : list Out.row) :
  Sorted not_below l → Sorted not_below (insert_desc r l).
Proof.
  induction 1 as [|x l Hl IH Hhd]; simpl.
  - by repeat constructor.
  - destruct (Py.flt (Out.impact_score r) (Out.impact_score x)) eqn:Hlt.
    + constructor; [done|].
      destruct Hhd as [|y l Hxy]; simpl.
      * constructor. by apply flt_asym.
      * destruct (Py.flt (Out.impact_score r) (Out.impact_score y));
          constructor; [done|]. by apply flt_asym.
    + constructor; [by constructor|]. by constructor.
Qed.

Lemma sort_values_sorted (l : list Out.row) : Sorted not_below (sort_values l).
Proof.
  induction l as [|x l IH]; simpl; [constructor|].
  by apply insert_desc_sorted.
Qed.

Lemma flt_trans (x y z : spec_float) :
  Py.flt x y = true → Py.flt y z = true → Py.flt x z = true.
Proof.
  assert (∀ e1 m1 e2 m2,
            match e1 ?= e2 with
            | Lt => Lt | Gt => Gt | Eq => Pos.compare_cont Eq m1 m2
            end = Lt
            ↔ e1 < e2 ∨ (e1 = e2 ∧ Zpos m1 < Zpos m2)) as Hlt.
  { intros e1 m1 e2 m2.
    change (Pos.compare_cont Eq m1 m2) with (Pos.compare m1 m2).
    destruct (Z.compare_spec e1 e2); destruct (Pos.compare_spec m1 m2);
      split; intros; try discriminate; try lia; reflexivity. }
  assert (∀ e1 m1 e2 m2,
            match e1 ?= e2 with
            | Lt => Gt | Gt => Lt | Eq => CompOpp (Pos.compare_cont Eq m1 m2)
            end = Lt
            ↔ e2 < e1 ∨ (e1 = e2 ∧ Zpos m2 < Zpos m1)) as Hgt.
  { intros e1 m1 e2 m2.
    change (Pos.compare_cont Eq m1 m2) with (Pos.compare m1 m2).
    destruct (Z.compare_spec e1 e2); destruct (Pos.compare_spec m1 m2);
      simpl; split; intros; try discriminate; try lia; reflexivity. }
  unfold Py.flt, SFltb.
  destruct x as [[]|[]| |[] m1 e1], y as [[]|[]| |[] m2 e2],
           z as [[]|[]| |[] m3 e3]; simpl; try discriminate; try reflexivity.
  - destruct (match e1 ?= e2 with Lt => Gt | Gt => Lt | Eq => _ end) eqn:E1;
      try discriminate.
    destruct (match e2 ?= e3 with Lt => Gt | Gt => Lt | Eq => _ end) eqn:E2;
      try discriminate.
    apply Hgt in E1, E2. intros _ _.
    assert (match e1 ?= e3 with
            | Lt => Gt | Gt => Lt | Eq => CompOpp (Pos.compare_cont Eq m1 m3)
            end = Lt) as ->; [|reflexivity].
    apply Hgt. lia.
  - destruct (match e1 ?= e2 with Lt => Lt | Gt => Gt | Eq => _ end) eqn:E1;
      try discriminate.
    destruct (match e2 ?= e3 with Lt => Lt | Gt => Gt | Eq => _ end) eqn:E2;
      try discriminate.
    apply Hlt in E1, E2. intros _ _.
    assert (match e1 ?= e3 with
            | Lt => Lt | Gt => Gt | Eq => Pos.compare_cont Eq m1 m3
            end = Lt) as ->; [|reflexivity].
    apply Hlt. lia.
Qed.

(** *** The scored table *)

Lemma final_row_total (df : list ActivityRecord) (eng : string) :
  Out.engineer (final_row df eng) = eng
  ∧ Out.delivery (final_row df eng) = Py.float (delivery_of eng df)
  ∧ Out.leadership (final_row df eng) = Py.float (leadership_of eng df)
  ∧ Out.reviews (final_row df eng)
    = Py.float (PInt (review_total eng (review_rows df))).
Proof. apply engineer_row_total. Qed.

Lemma main_rows iter (df : list ActivityRecord) (out : list Out.row) :
  main iter df = Some out →
  out = with_why (score_prs df) (score_reviews (review_rows df)) <$>
          sort_values
            (engineer_row (score_prs df) (score_reviews (review_rows df)) <$>
               iter (authors df ∪ reviewers df)).
Proof.
  unfold main. rewrite dom_author_scores, dom_reviewer_scores.
  destruct (_ <$> iter _) eqn:Hrows; [done|]. by intros [= <-].
Qed.

Lemma main_perm iter (df : list ActivityRecord) (out : list Out.row) :
  set_order iter → main iter df = Some out →
  out ≡ₚ final_row df <$> elements (authors df ∪ reviewers df).
Proof.
  intros Hiter ->%main_rows.
  rewrite sort_values_perm, <-list_fmap_compose. by rewrite (Hiter _).
Qed.

Lemma main_sorted iter (df : list ActivityRecord) (out : list Out.row) :
  main iter df = Some out → Sorted not_below out.
Proof.
  intros ->%main_rows.
  eapply Sorted_fmap; [|apply sort_values_sorted]. done.
Qed.

Lemma main_defined iter (df : list ActivityRecord) :
  set_order iter → df ≠ [] → is_Some (main iter df).
Proof.
  intros Hiter Hdf. unfold main.
  rewrite dom_author_scores, dom_reviewer_scores.
  destruct (_ <$> iter _) eqn:Hrows; [|by eexists].
  apply fmap_nil_inv in Hrows.
  pose proof (Hiter (authors df ∪ reviewers df)) as Hp.
  rewrite Hrows in Hp. apply Permutation_nil_l in Hp.
  destruct df as [|pr df]; [done|].
  assert (df_author pr ∈ authors (pr :: df) ∪ reviewers (pr :: df)) as Hin.
  { apply elem_of_union_l. unfold authors.
    rewrite elem_of_list_to_set, fmap_cons. left. }
  apply elem_of_elements in Hin. rewrite <-Hp in Hin.
  by apply elem_of_nil in Hin.
Qed.

Lemma main_engineers iter (df : list ActivityRecord) (out : list Out.row) :
  set_order iter → main iter df = Some out →
  Out.engineer <$> out ≡ₚ elements (authors df ∪ reviewers df).
Proof.
  intros Hiter Hmain. rewrite (main_perm iter df out Hiter Hmain).
  rewrite <-list_fmap_compose.
  erewrite (list_fmap_ext _ id); [by rewrite list_fmap_id|].
  intros i eng _. apply final_row_total.
Qed.

Lemma main_row_of iter (df : list ActivityRecord) (out : list Out.row)
    (eng : string) :
  set_order iter → main iter df = Some out →
  eng ∈ authors df ∪ reviewers df →
  final_row df eng ∈ out
  ∧ ∀ row, row ∈ out → Out.engineer row = eng → row = final_row df eng.
Proof.
  intros Hiter Hmain Hin.
  pose proof (main_perm iter df out Hiter Hmain) as Hp.
  split.
  - rewrite Hp. apply list_elem_of_fmap_2. by apply elem_of_elements.
  - intros row Hrow Heng. rewrite Hp in Hrow.
    apply list_elem_of_fmap in Hrow as (eng' & -> & _).
    f_equal. rewrite <-Heng. symmetry. apply final_row_total.
Qed.

End ScoreFacts.

(** ** The ingestion pipeline on the sample upstreams *)

Section FetchSamples.

Import FetchData.

Lemma saved_table_in_window_witness :
  outcome (main Sample.since Sample.one_page Sample.to_datetime 5) = Saved Sample.kept
  ∧ (∀ r, r ∈ Sample.kept → Sample.since ≤ mergedAt r)
  ∧ (∀ t r, t ∈ written (main Sample.since Sample.one_page Sample.to_datetime 5) → r ∈ t →
       Sample.since ≤ mergedAt r).
Proof.
  split; [reflexivity|].
  apply (saved_table_in_window Sample.since Sample.one_page Sample.to_datetime 5
           Sample.kept).
  reflexivity.
Defined.

(** C3, as stated, fails: the only page of the upstream says that no page
    follows it, and the loop still sends a second request, with the end
    cursor of that page. *)
Lemma next_page_requested_after_the_last :
  Sample.one_page 0 None = Some Sample.last_page
  ∧ hasNextPage (pageInfo Sample.last_page) = false
  ∧ sent (main Sample.since Sample.one_page Sample.to_datetime 5) = [None; Some "c1"].
Proof. split; [reflexivity|]. split; reflexivity. Qed.

Lemma stops_at_first_page_keeping_nothing_witness :
  trail Sample.one_page 2 0 None
    = [Sample.last_page] ++ [Sample.block [] false None]
  ∧ Forall (λ b, kept_this_page Sample.since b ≠ 0%nat) [Sample.last_page]
  ∧ kept_this_page Sample.since (Sample.block [] false None) = 0%nat
  ∧ (1 < 5)%nat
  ∧ ∃ st, fetch_loop Sample.since Sample.one_page 5 init = Break st
      ∧ requests st = [None; Some "c1"]
      ∧ rows st = Sample.kept
      ∧ pages st = 2%nat.
Proof.
  assert (Forall (λ b, kept_this_page Sample.since b ≠ 0%nat)
            [Sample.last_page]) as Hkept
    by (repeat constructor; vm_compute; discriminate).
  split; [reflexivity|]. split; [exact Hkept|]. split; [reflexivity|].
  split; [lia|].
  destruct (stops_at_first_page_keeping_nothing Sample.since Sample.one_page
              [Sample.last_page] (Sample.block [] false None) 5)
    as (st & Hloop & Hreq & Hrows & Hpages);
    [reflexivity | exact Hkept | reflexivity | simpl; lia |].
  exists st. split; [exact Hloop|]. split; [exact Hreq|].
  split; [|exact Hpages]. rewrite Hrows. reflexivity.
Defined.

(** The fatal exit on the stale upstream. *)
Lemma stale_upstream_is_fatal :
  fetch_loop Sample.since Sample.stale 5 init = Break Sample.stale_exit
  ∧ rows Sample.stale_exit = []
  ∧ main Sample.since Sample.stale Sample.to_datetime 5 =
      {| outcome := NoPRsCollected; sent := [None]; written := [] |}.
Proof. split; [reflexivity|]. split; reflexivity. Qed.

(** C8, as stated, fails: on an upstream that answers ten pages and then
    fails, the run ends on the error of the transport and leaves a table in
    the output file, the checkpoint of the tenth page.  It is a partial
    table: an upstream that goes on after the same ten pages leads to a
    table of which it holds the first ten rows only. *)
Lemma checkpoint_stays_after_transport_failure :
  main Sample.since Upstream.cut Sample.to_datetime 20 =
    {| outcome := TransportFailure;
       sent := None :: replicate 10 (Some "next");
       written := [Upstream.cut_checkpoint] |}
  ∧ length Upstream.cut_checkpoint = 10%nat
  ∧ (∀ n c, (n < 10)%nat → Upstream.cut n c = Cases.long n c)
  ∧ outcome (main Sample.since Cases.long Sample.to_datetime 20)
    = Saved Cases.long_df
  ∧ Upstream.cut_checkpoint = take 10 Cases.long_df
  ∧ length Cases.long_df = 11%nat.
Proof.
  split; [reflexivity|]. split; [reflexivity|]. split.
  { intros n c Hn. unfold Upstream.cut, Cases.long.
    destruct (Nat.ltb_spec n 10); [|lia].
    destruct (Nat.ltb_spec n 11); [done | lia]. }
  split; [reflexivity|]. split; reflexivity.
Qed.

(** C6, as stated, fails: the saved table holds a review without
    submission time. *)
Lemma saved_table_holds_review_without_time :
  outcome (main Sample.since Sample.one_page Sample.to_datetime 5) = Saved Sample.kept
  ∧ reviews <$> Sample.kept =
      [Some [{| reviewer := Some "unknown"; state := Some "PENDING";
                submittedAt := None |}]].
Proof. split; reflexivity. Qed.

End FetchSamples.

(** ** The claims on the scoring engine *)

Section ScoreClaims.

Import Score.




Lemma core_multiplier_first_match (files : list string) :
  core_multiplier files =
    if existsb (Re.search_prefix_dir CORE_AREA) files then Py.literal 13 10
    else if existsb (Re.search_prefix_dir OPS_AREA) files
         then Py.literal 125 100
         else DEFAULT_MULT.
Proof. reflexivity. Qed.

Lemma pr_points_accumulated (pr : ActivityRecord) :
  pr_points pr =
    PFloat (SFmul Py.prec Py.emax (Py.float_of_int (accumulated pr))
              (core_multiplier (df_files pr))).
Proof.
  unfold pr_points, accumulated, Py.mul, Py.float.
  do 2 f_equal.
  destruct (has_tests_or_docs _), (is_bugfix _), (is_infra_or_tooling _);
    f_equal; lia.
Qed.



(** A record worth 20 points before the multiplier, in a core area. *)
Lemma twenty_points_score_26 :
  accumulated Sample.twenty_pr = 20
  ∧ pr_points Sample.twenty_pr = PFloat (Py.literal 26 1).
Proof. split; by vm_compute. Qed.


Lemma review_rows_spec (df : list ActivityRecord) (row : ReviewRow) :
  row ∈ review_rows df ↔
    ∃ pr rv t, pr ∈ df ∧ rv ∈ df_reviews pr ∧ submittedAt rv = Some t
      ∧ row = {| rr_reviewer := default "unknown" (reviewer rv);
                 rr_pr_url := url pr;
                 rr_pr_title := df_title pr;
                 rr_submittedAt := t;
                 rr_early := early (createdAt pr) t |}.
Proof.
  unfold review_rows. rewrite list_elem_of_bind. split.
  - intros (pr & Hrow & Hpr).
    apply list_elem_of_omap in Hrow as (rv & Hrv & Hrr).
    unfold review_row in Hrr.
    destruct (submittedAt rv) as [t|] eqn:Ht; [|done].
    injection Hrr as <-. by exists pr, rv, t.
  - intros (pr & rv & t & Hpr & Hrv & Ht & ->).
    exists pr. split; [|done].
    apply list_elem_of_omap. exists rv. split; [done|].
    unfold review_row. by rewrite Ht.
Qed.

(** C6: ingestion flattens every embedded review into reviewer, state and
    submission time, and keeps it in the table whether it has a submission
    time or not; the scoring engine is where the reviews without
    submission time are dropped: its review table has a row for each review
    of the activity table that has one, and for no other. *)
Theorem reviews_without_time_dropped_by_scoring :
  (∀ rvs : list FetchData.RawReview,
     length (FetchData.review_flat rvs) = length rvs
     ∧ ∀ i rv, rvs !! i = Some rv →
         FetchData.review_flat rvs !! i =
           Some {| reviewer :=
                     Some (FetchData.login_or_unknown (FetchData.rv_author rv));
                   state := FetchData.rv_state rv;
                   submittedAt := FetchData.rv_submittedAt rv |})
  ∧ (∀ pr merged,
       reviews (FetchData.normalize pr merged) =
         Some (FetchData.review_flat (default [] (FetchData.pr_reviews pr))))
  ∧ (∀ df row,
       row ∈ review_rows df ↔
         ∃ pr rv t, pr ∈ df ∧ rv ∈ df_reviews pr ∧ submittedAt rv = Some t
           ∧ row = {| rr_reviewer := default "unknown" (reviewer rv);
                      rr_pr_url := url pr;
                      rr_pr_title := df_title pr;
                      rr_submittedAt := t;
                      rr_early := early (createdAt pr) t |}).
Proof.
  split; [apply review_flat_keeps_all|].
  split; [done | apply review_rows_spec].
Qed.

(** The reviewers of the review table are the submitters that the cells
    of the activity table show: those of the reviews with a submission time
    in the cells that hold a list. *)
Lemma reviewers_are_submitters (df : list ActivityRecord) :
  reviewers df = submitters df.
Proof.
  unfold reviewers, submitters, review_rows. f_equal.
  induction df as [|pr df IH]; [done|].
  cbn [mbind list_bind]. rewrite fmap_app. f_equal; [|apply IH].
  unfold df_reviews. destruct (reviews pr) as [rvs|]; [|done]. simpl.
  induction rvs as [|rv rvs IHr]; [done|].
  cbn [omap list_omap]. unfold review_row at 1, submitter at 1.
  destruct (submittedAt rv); [|apply IHr].
  rewrite fmap_cons. f_equal. apply IHr.
Qed.

(** The engine on a table as it is in memory, where the cells that hold
    reviews hold lists: on a table with a record, it returns a table with
    one row for each contributor of the union of the authors and of the
    review submitters, and a submitter who authored nothing is there with
    no delivery, no leadership and positive review points. *)
Lemma one_row_per_contributor
    (iter : gset string → list string) (df : list ActivityRecord) :
  set_order iter → df ≠ [] →
  ∃ out, main iter df = Some out
    ∧ Out.engineer <$> out ≡ₚ elements (authors df ∪ submitters df)
    ∧ ∀ eng, eng ∈ submitters df → eng ∉ authors df →
        ∃ row, row ∈ out
          ∧ (∀ row', row' ∈ out → Out.engineer row' = eng → row' = row)
          ∧ Out.engineer row = eng
          ∧ Out.delivery row = Py.zero
          ∧ Out.leadership row = Py.zero
          ∧ Py.flt Py.zero (Out.reviews row) = true.
Proof.
  rewrite <-reviewers_are_submitters.
  intros Hiter Hdf.
  destruct (main_defined iter df Hiter Hdf) as [out Hmain].
  exists out. split; [done|]. split; [by apply (main_engineers iter)|].
  intros eng Hrev Hauth.
  destruct (main_row_of iter df out eng Hiter Hmain) as [Hin Huniq];
    [by apply elem_of_union_r|].
  exists (final_row df eng). split; [done|]. split; [done|].
  destruct (final_row_total df eng) as (-> & -> & -> & ->).
  split; [done|].
  apply records_of_nil in Hauth.
  unfold delivery_of, leadership_of. rewrite Hauth.
  split; [done|]. split; [done|].
  apply float_of_int_pos, review_total_pos.
  intros Hnil. apply reviews_of_nil in Hnil. apply Hnil.
  unfold reviewers in Hrev. by apply elem_of_list_to_set in Hrev.
Qed.

Lemma sorted_strictly (l : list Out.row) :
  NoDup l → Sorted not_below l →
  (∀ r1 r2, r1 ∈ l → r2 ∈ l → r1 ≠ r2 → above r1 r2 ∨ above r2 r1) →
  Sorted above l.
Proof.
  intros Hnd Hs. induction Hs as [|x l Hl IH Hhd]; intros Hties; [constructor|].
  apply NoDup_cons in Hnd as [Hx Hnd].
  constructor.
  - apply IH; [done|]. intros r1 r2 H1 H2. apply Hties; by right.
  - destruct Hhd as [|y l Hxy]; constructor.
    destruct (Hties x y) as [Habove|Hbelow].
    + left.
    + right; left.
    + intros ->. apply Hx. left.
    + done.
    + unfold above, not_below in *. congruence.
Qed.

(** C9: whatever the order in which the process iterates over the set of
    contributors, the engine returns the same rows, the same contributors
    with the same four totals and the same bullets, sorted so that no row
    has a smaller score than the next; and it returns them in the same
    order when no two contributors have an equal score. *)
Theorem same_rows_whatever_the_set_order
    (iter1 iter2 : gset string → list string) (df : list ActivityRecord) :
  set_order iter1 → set_order iter2 → df ≠ [] →
  ∃ out1 out2, main iter1 df = Some out1 ∧ main iter2 df = Some out2
    ∧ out1 ≡ₚ out2
    ∧ Sorted not_below out1 ∧ Sorted not_below out2
    ∧ ((∀ r1 r2, r1 ∈ out1 → r2 ∈ out1 → r1 ≠ r2 →
          above r1 r2 ∨ above r2 r1) → out1 = out2).
Proof.
  intros Hiter1 Hiter2 Hdf.
  destruct (main_defined iter1 df Hiter1 Hdf) as [out1 Hmain1].
  destruct (main_defined iter2 df Hiter2 Hdf) as [out2 Hmain2].
  exists out1, out2. split; [done|]. split; [done|].
  assert (out1 ≡ₚ out2) as Hperm.
  { rewrite (main_perm iter1 df out1 Hiter1 Hmain1).
    by rewrite (main_perm iter2 df out2 Hiter2 Hmain2). }
  pose proof (main_sorted iter1 df out1 Hmain1) as Hs1.
  pose proof (main_sorted iter2 df out2 Hmain2) as Hs2.
  do 3 (split; [done|]).
  intros Hties.
  assert (NoDup out1) as Hnd1.
  { apply (NoDup_fmap_1 Out.engineer).
    rewrite (main_engineers iter1 df out1 Hiter1 Hmain1).
    apply NoDup_elements. }
  assert (Transitive above) as Htrans.
  { intros x y z Hxy Hyz. unfold above in *. by eapply flt_trans. }
  apply (Sorted_unique_strong above); [| | |done].
  - intros x1 x2 _ _ H12 H21. unfold above in *.
    apply flt_asym in H12. congruence.
  - by apply sorted_strictly.
  - apply sorted_strictly; [by rewrite <-Hperm | done |].
    intros r1 r2 H1 H2. apply Hties; by rewrite Hperm.
Qed.

(** The engine on a table as it is in memory.  A review whose author is
    missing is flattened with the reviewer "unknown", as a record whose
    author is missing is given the author "unknown"; in the scored table
    there is one row for "unknown", and it holds the points of all the
    scored reviews and of all the records under that name. *)
Lemma unknown_is_pooled
    (iter : gset string → list string) (df : list ActivityRecord)
    (out : list Out.row) :
  set_order iter → main iter df = Some out →
  "unknown" ∈ authors df ∪ reviewers df →
  (∀ rv : FetchData.RawReview,
     FetchData.rv_author rv = None
     ∨ FetchData.rv_author rv = Some {| FetchData.login := None |} →
     reviewer (FetchData.flatten_review rv) = Some "unknown")
  ∧ (∀ (pr : FetchData.RawPR) merged,
       FetchData.pr_author pr = None
       ∨ FetchData.pr_author pr = Some {| FetchData.login := None |} →
       author (FetchData.normalize pr merged) = Some "unknown")
  ∧ (∀ pr rv t,
       pr ∈ df → rv ∈ df_reviews pr → submittedAt rv = Some t →
       reviewer rv = Some "unknown" ∨ reviewer rv = None →
       ∃ row, row ∈ reviews_of "unknown" (review_rows df)
         ∧ rr_submittedAt row = t
         ∧ review_points row
           = W_REVIEW
             + (if early (createdAt pr) t then W_REVIEW_EARLY else 0))
  ∧ (∀ pr, pr ∈ df → author pr = None ∨ author pr = Some "unknown" →
       pr ∈ records_of "unknown" df)
  ∧ ∃ row, row ∈ out
      ∧ (∀ row', row' ∈ out → Out.engineer row' = "unknown" → row' = row)
      ∧ Out.engineer row = "unknown"
      ∧ Out.reviews row
        = Py.float (PInt (review_total "unknown" (review_rows df)))
      ∧ Out.delivery row = Py.float (delivery_of "unknown" df)
      ∧ Out.leadership row = Py.float (leadership_of "unknown" df).
Proof.
  intros Hiter Hmain Hin.
  split; [intros rv H; simpl; f_equal; by apply missing_login_is_unknown|].
  split; [intros pr m H; simpl; f_equal; by apply missing_login_is_unknown|].
  split.
  { intros pr rv t Hpr Hrv Ht Hwho.
    exists {| rr_reviewer := default "unknown" (reviewer rv);
              rr_pr_url := url pr;
              rr_pr_title := df_title pr;
              rr_submittedAt := t;
              rr_early := early (createdAt pr) t |}.
    split; [|done].
    apply list_elem_of_filter. split; [|apply review_rows_spec; eauto 10].
    by destruct Hwho as [-> | ->]. }
  split.
  { intros pr Hpr Hwho. apply list_elem_of_filter. split; [|done].
    unfold df_author. by destruct Hwho as [-> | ->]. }
  destruct (main_row_of iter df out "unknown" Hiter Hmain Hin) as [Hrow Huniq].
  exists (final_row df "unknown"). split; [done|]. split; [done|].
  destruct (final_row_total df "unknown") as (-> & -> & -> & ->). done.
Qed.

End ScoreClaims.

(** ** The scoring engine on the sample tables *)

Section ScoreSamples.

Import Score.

Lemma forwards_order : set_order Sample.forwards.
Proof. intros X. reflexivity. Qed.

Lemma backwards_order : set_order Sample.backwards.
Proof. intros X. apply reverse_Permutation. Qed.

Lemma one_row_per_contributor_witness :
  set_order Sample.forwards
  ∧ [Sample.day_pr] ≠ []
  ∧ ∃ out, main Sample.forwards [Sample.day_pr] = Some out
      ∧ Out.engineer <$> out
        ≡ₚ elements (authors [Sample.day_pr] ∪ submitters [Sample.day_pr])
      ∧ ∀ eng, eng ∈ submitters [Sample.day_pr] →
               eng ∉ authors [Sample.day_pr] →
          ∃ row, row ∈ out
            ∧ (∀ row', row' ∈ out → Out.engineer row' = eng → row' = row)
            ∧ Out.engineer row = eng
            ∧ Out.delivery row = Py.zero
            ∧ Out.leadership row = Py.zero
            ∧ Py.flt Py.zero (Out.reviews row) = true.
Proof.
  split; [intros X; reflexivity|]. split; [discriminate|].
  apply (one_row_per_contributor Sample.forwards [Sample.day_pr]);
    [intros X; reflexivity | discriminate].
Defined.

(** The reviewer of the sample is in the table with review points only. *)
Lemma reviewer_only_row :
  main Sample.forwards [Sample.day_pr] =
    Some [final_row [Sample.day_pr] "alice"; final_row [Sample.day_pr] "bob"]
  ∧ Out.delivery (final_row [Sample.day_pr] "bob") = Py.zero
  ∧ Out.leadership (final_row [Sample.day_pr] "bob") = Py.zero
  ∧ Out.reviews (final_row [Sample.day_pr] "bob") = Py.float_of_int 3.
Proof. split; [|split; [|split]]; by vm_compute. Qed.

Lemma same_rows_whatever_the_set_order_witness :
  set_order Sample.forwards
  ∧ set_order Sample.backwards
  ∧ [Sample.day_pr] ≠ []
  ∧ ∃ out1 out2,
      main Sample.forwards [Sample.day_pr] = Some out1
      ∧ main Sample.backwards [Sample.day_pr] = Some out2
      ∧ out1 ≡ₚ out2
      ∧ Sorted not_below out1 ∧ Sorted not_below out2
      ∧ ((∀ r1 r2, r1 ∈ out1 → r2 ∈ out1 → r1 ≠ r2 →
            above r1 r2 ∨ above r2 r1) → out1 = out2).
Proof.
  split; [intros X; reflexivity|].
  split; [intros X; apply reverse_Permutation|].
  split; [discriminate|].
  apply (same_rows_whatever_the_set_order Sample.forwards Sample.backwards
           [Sample.day_pr]);
    [intros X; reflexivity | intros X; apply reverse_Permutation
     | discriminate].
Defined.

(** Without a tie the two orders of iteration give one table. *)
Lemma untied_rows_come_in_one_order :
  main Sample.forwards [Sample.day_pr] = main Sample.backwards [Sample.day_pr].
Proof. by vm_compute. Qed.

(** C9, as stated, fails: two contributors of equal score come out in the
    order in which the set of contributors was iterated over. *)
Lemma tied_rows_follow_the_set_order :
  Out.engineer <$> default [] (main Sample.forwards Sample.tie)
    = ["ann"; "bob"]
  ∧ Out.engineer <$> default [] (main Sample.backwards Sample.tie)
    = ["bob"; "ann"]
  ∧ Out.impact_score <$> default [] (main Sample.forwards Sample.tie)
    = Out.impact_score <$> default [] (main Sample.backwards Sample.tie)
  ∧ main Sample.forwards Sample.tie ≠ main Sample.backwards Sample.tie.
Proof. split; [|split; [|split]]; by vm_compute. Qed.

Lemma unknown_is_pooled_witness :
  set_order Sample.forwards
  ∧ main Sample.forwards Sample.anonymous = Some Sample.anonymous_scored
  ∧ "unknown" ∈ authors Sample.anonymous ∪ reviewers Sample.anonymous
  ∧ ∃ row, row ∈ Sample.anonymous_scored
      ∧ (∀ row', row' ∈ Sample.anonymous_scored →
           Out.engineer row' = "unknown" → row' = row)
      ∧ Out.engineer row = "unknown"
      ∧ Out.reviews row
        = Py.float (PInt (review_total "unknown"
                            (review_rows Sample.anonymous)))
      ∧ Out.delivery row = Py.float (delivery_of "unknown" Sample.anonymous)
      ∧ Out.leadership row
        = Py.float (leadership_of "unknown" Sample.anonymous).
Proof.
  split; [intros X; reflexivity|].
  split; [by vm_compute|].
  split; [apply elem_of_union_l, elem_of_list_to_set; left|].
  apply (unknown_is_pooled Sample.forwards Sample.anonymous
           Sample.anonymous_scored);
    [intros X; reflexivity | by vm_compute
     | apply elem_of_union_l, elem_of_list_to_set; left].
Defined.

(** The anonymous activity of the sample, pooled: two scored reviews of 3
    points, one record of 16 points times 1.25 in the leadership bucket. *)
Lemma anonymous_row :
  Sample.anonymous_scored = [final_row Sample.anonymous "unknown"]
  ∧ Out.reviews (final_row Sample.anonymous "unknown") = Py.float_of_int 6
  ∧ Out.delivery (final_row Sample.anonymous "unknown") = Py.zero
  ∧ Out.leadership (final_row Sample.anonymous "unknown") = Py.float_of_int 20.
Proof. split; [|split; [|split]]; by vm_compute. Qed.

End ScoreSamples.

(** ** Properties of the transport client *)

Section TransportFacts.

Import Transport.

Context {D : Type}.

(** The only reply that [post_gql] takes for an answer: status 200, a JSON
    body without the key ["errors"], with the key ["data"]. *)
Lemma try_once_Some (r : Reply D) (d : D) :
  try_once r = Some d ↔ r = Response 200 (Json false (Some d)).
Proof.
  split; [|by intros ->].
  destruct r as [|status [|errors data]]; simpl; try done.
  - case_bool_decide; [done|]. by destruct (status =? 200).
  - case_bool_decide; [done|].
    destruct (Z.eqb_spec status 200) as [->|]; [|done]. simpl.
    destruct errors; [done|]. by intros ->.
Qed.

Lemma attempts_first_good (net : nat → Reply D) (left : nat) :
  ∀ a slept k d,
    (a ≤ k < a + left)%nat →
    try_once (net k) = Some d →
    (∀ j, (a ≤ j < k)%nat → try_once (net j) = None) →
    attempts net left a slept =
      {| returned := Some d; posts := k;
         sleeps := slept ++ (backoff_wait <$> seq a (k - a)) |}.
Proof.
  induction left as [|left IH]; intros a slept k d Hk Hgood Hbad; [lia|].
  simpl. destruct (decide (k = a)) as [->|Hne].
  - rewrite Hgood, Nat.sub_diag. simpl. by rewrite app_nil_r.
  - rewrite (Hbad a) by lia.
    rewrite (IH (S a) _ k d); [|lia|done|intros j Hj; apply Hbad; lia].
    replace (k - a)%nat with (S (k - S a)) by lia.
    simpl. by rewrite <-app_assoc.
Qed.

Lemma attempts_all_bad (net : nat → Reply D) (left : nat) :
  ∀ a slept,
    (∀ j, (a ≤ j < a + left)%nat → try_once (net j) = None) →
    attempts net left a slept =
      {| returned := None; posts := (a + left - 1)%nat;
         sleeps := slept ++ (backoff_wait <$> seq a left) |}.
Proof.
  induction left as [|left IH]; intros a slept Hbad; simpl.
  - rewrite app_nil_r. f_equal. lia.
  - rewrite (Hbad a) by lia.
    rewrite IH by (intros j Hj; apply Hbad; lia).
    rewrite <-app_assoc. simpl. f_equal. lia.
Qed.

(** Among the attempts from [a] on there is a first good one, or none. *)
Lemma first_good_or_none (net : nat → Reply D) (left : nat) :
  ∀ a,
    (∃ k d, (a ≤ k < a + left)%nat ∧ try_once (net k) = Some d
            ∧ ∀ j, (a ≤ j < k)%nat → try_once (net j) = None)
    ∨ (∀ j, (a ≤ j < a + left)%nat → try_once (net j) = None).
Proof.
  induction left as [|left IH]; intros a; [right; intros j Hj; lia|].
  destruct (try_once (net a)) as [d|] eqn:Ha.
  - left. exists a, d. repeat split; [lia..|done|intros j Hj; lia].
  - destruct (IH (S a)) as [(k & d & Hk & Hgood & Hbad) | Hbad].
    + left. exists k, d. split; [lia|]. split; [done|].
      intros j Hj. destruct (decide (j = a)) as [->|]; [done|].
      apply Hbad. lia.
    + right. intros j Hj. destruct (decide (j = a)) as [->|]; [done|].
      apply Hbad. lia.
Qed.

(** [post_gql] returns the data of the first reply, among the six it may
    ask for, that has status 200 and a JSON body with data and without
    errors; it has then posted as many requests as it took to get there,
    and has slept 1.5 to the power of the attempt after each attempt that
    failed. *)
Theorem post_gql_returns_first_good (net : nat → Reply D) (d : D) :
  (returned (post_gql net) = Some d ↔
     ∃ k, (1 ≤ k ≤ 6)%nat ∧ net k = Response 200 (Json false (Some d))
          ∧ ∀ j, (1 ≤ j < k)%nat → try_once (net j) = None)
  ∧ (∀ k, (1 ≤ k ≤ 6)%nat → net k = Response 200 (Json false (Some d)) →
          (∀ j, (1 ≤ j < k)%nat → try_once (net j) = None) →
          post_gql net =
            {| returned := Some d; posts := k;
               sleeps := backoff_wait <$> seq 1 (k - 1) |}).
Proof.
  assert (∀ k, (1 ≤ k ≤ 6)%nat → net k = Response 200 (Json false (Some d)) →
            (∀ j, (1 ≤ j < k)%nat → try_once (net j) = None) →
            post_gql net =
              {| returned := Some d; posts := k;
                 sleeps := backoff_wait <$> seq 1 (k - 1) |}) as Hret.
  { intros k Hk Hgood Hbad. unfold post_gql, MAX_RETRIES.
    rewrite (attempts_first_good net 6 1 [] k d); [done|lia| |done].
    by apply try_once_Some. }
  split; [|done]. split.
  - intros Hd.
    destruct (first_good_or_none net 6 1) as [(k & d' & Hk & Hgood & Hbad)|Hbad].
    + unfold post_gql, MAX_RETRIES in Hd.
      rewrite (attempts_first_good net 6 1 [] k d') in Hd by done.
      injection Hd as ->. exists k. split; [lia|].
      split; [by apply try_once_Some | done].
    + unfold post_gql, MAX_RETRIES in Hd.
      by rewrite (attempts_all_bad net 6 1 []) in Hd.
  - intros (k & Hk & Hgood & Hbad). by rewrite (Hret k).
Qed.

(** [post_gql] raises its final error exactly when none of six replies is
    good, whatever was wrong with them: it has then posted six requests and
    slept six times, 1.5, 2.25, 3.375, 5.0625, 7.59375 and 11.390625
    seconds, the last time after the last failure. *)
Theorem post_gql_gives_up_after_six (net : nat → Reply D) :
  (returned (post_gql net) = None ↔
     ∀ j, (1 ≤ j ≤ 6)%nat → try_once (net j) = None)
  ∧ (returned (post_gql net) = None →
       posts (post_gql net) = 6%nat
       ∧ sleeps (post_gql net) =
           [Py.literal 3 2; Py.literal 9 4; Py.literal 27 8;
            Py.literal 81 16; Py.literal 243 32; Py.literal 729 64]).
Proof.
  assert (returned (post_gql net) = None →
            ∀ j, (1 ≤ j ≤ 6)%nat → try_once (net j) = None) as Hnone.
  { intros Hret.
    destruct (first_good_or_none net 6 1) as [(k & d & Hk & Hgood & Hbad)|Hbad].
    - unfold post_gql, MAX_RETRIES in Hret.
      by rewrite (attempts_first_good net 6 1 [] k d) in Hret.
    - intros j Hj. apply Hbad. lia. }
  assert ((∀ j, (1 ≤ j ≤ 6)%nat → try_once (net j) = None) →
            post_gql net =
              {| returned := None; posts := 6;
                 sleeps := backoff_wait <$> seq 1 6 |}) as Hall.
  { intros Hbad. unfold post_gql, MAX_RETRIES.
    rewrite (attempts_all_bad net 6 1 []); [done|].
    intros j Hj. apply Hbad. lia. }
  split.
  - split; [done|]. intros Hbad. by rewrite (Hall Hbad).
  - intros Hret. rewrite (Hall (Hnone Hret)). done.
Qed.

End TransportFacts.

(** ** More properties of the ingestion pipeline *)

Section FetchMore.

Import FetchData.

Variable SINCE_DT : Z.
Variable post_gql : nat → option string → option PRBlock.
Variable to_datetime : list Z → list (option Z).

Local Abbreviation keep_pr := (keep_pr SINCE_DT).
Local Abbreviation kept_rows := (kept_rows SINCE_DT).
Local Abbreviation kept_this_page := (kept_this_page SINCE_DT).
Local Abbreviation fetch_loop := (fetch_loop SINCE_DT post_gql).
Local Abbreviation final_filter := (final_filter SINCE_DT to_datetime).
Local Abbreviation main := (main SINCE_DT post_gql to_datetime).

(** Whatever holds of every row the loop keeps holds of the rows and of the
    checkpoints it is left with. *)
Lemma fetch_loop_rows_inv (P : ActivityRecord → Prop) :
  (∀ pr r, keep_pr pr = Some r → P r) →
  ∀ fuel st,
    Forall P (rows st) → Forall (Forall P) (writes st) →
    Forall P (rows (exit_state (fetch_loop fuel st)))
    ∧ Forall (Forall P) (writes (exit_state (fetch_loop fuel st))).
Proof.
  intros HP. induction fuel as [|fuel IH]; intros st Hr Hw; [done|].
  simpl. destruct (post_gql (pages st) (cursor st)) as [blk|]; [|done].
  assert (Forall P (rows st ++ kept_rows blk)) as Hr'.
  { apply Forall_app; split; [done|]. apply Forall_forall. intros r Hin.
    apply list_elem_of_omap in Hin as (pr & _ & Hk). by eapply HP. }
  assert (Forall (Forall P)
            (if (S (pages st) mod 10 =? 0)%nat
             then writes st ++ [rows st ++ kept_rows blk] else writes st)) as Hw'.
  { destruct (_ =? _)%nat; [|done].
    apply Forall_app; split; [done|]. by apply Forall_singleton. }
  destruct (FetchData.kept_this_page SINCE_DT blk =? 0)%nat; [done|].
  by apply IH.
Qed.

Lemma written_rows_inv (P : ActivityRecord → Prop) (fuel : nat) :
  (∀ pr r, keep_pr pr = Some r → P r) →
  ∀ t r, t ∈ written (main fuel) → r ∈ t → P r.
Proof.
  intros HP t r. unfold FetchData.main.
  destruct (fetch_loop_rows_inv P HP fuel init) as [Hr Hw]; [done..|].
  destruct (fetch_loop fuel init) as [st|st|st]; simpl in *;
    try (intros Ht Hin; eapply Forall_forall in Hw; [|done];
         eapply Forall_forall in Hw; done).
  destruct (rows st) as [|r0 rs] eqn:Hrows; simpl.
  { intros Ht Hin. eapply Forall_forall in Hw; [|done].
    eapply Forall_forall in Hw; done. }
  intros [Ht| ->%list_elem_of_singleton]%elem_of_app Hin.
  - eapply Forall_forall in Hw; [|done]. eapply Forall_forall in Hw; done.
  - eapply elem_of_sublist in Hin;
      [|apply (final_filter_sublist SINCE_DT to_datetime)].
    eapply Forall_forall in Hr; done.
Qed.

Lemma or_unknown_named (o : option string) : or_unknown o ≠ EmptyString.
Proof.
  destruct o as [s|]; simpl; [|done].
  destruct (String.eqb_spec s EmptyString); done.
Qed.

Lemma keep_pr_normal pr r : keep_pr pr = Some r → Ingested.normal r.
Proof.
  unfold FetchData.keep_pr. destruct (pr_mergedAt pr) as [m|]; [|done].
  destruct (m <? SINCE_DT); [done|]. intros [= <-].
  split; [eexists; split; [done | apply or_unknown_named]|].
  split; [by eexists|]. split; [by eexists|].
  eexists. split; [done|]. unfold review_flat.
  apply Forall_fmap, Forall_forall. intros rv _. simpl.
  eexists. split; [done | apply or_unknown_named].
Qed.

(** Every row of every table the pipeline writes, checkpoint or final, is
    as the loop builds it: it has an author name that is not empty, lists
    for labels, files and reviews, and in each review a reviewer name that
    is not empty. *)
Theorem written_rows_are_normal
    (fuel : nat) (t : list ActivityRecord) (r : ActivityRecord) :
  t ∈ written (main fuel) → r ∈ t →
  (∃ a, author r = Some a ∧ a ≠ EmptyString)
  ∧ is_Some (labels r)
  ∧ is_Some (files r)
  ∧ ∃ rvs, reviews r = Some rvs
      ∧ ∀ rv, rv ∈ rvs → ∃ w, reviewer rv = Some w ∧ w ≠ EmptyString.
Proof.
  intros Ht Hr.
  pose proof (written_rows_inv Ingested.normal fuel keep_pr_normal t r Ht Hr)
    as (Ha & Hls & Hfs & rvs & Hrvs & Hnamed).
  split; [done|]. split; [done|]. split; [done|].
  exists rvs. split; [done|]. intros rv Hrv.
  eapply Forall_forall in Hnamed; done.
Qed.

(** What the loop keeps count of, between two iterations: as many requests
    sent as pages seen, a checkpoint for every tenth page, and in every
    checkpoint a prefix of the rows collected. *)
Lemma checkpoints_inv (fuel : nat) :
  ∀ st,
    length (requests st) = pages st →
    length (writes st) = (pages st / 10)%nat →
    Forall (λ t, t `prefix_of` rows st) (writes st) →
    ∀ st', fetch_loop fuel st = Break st' →
      length (requests st') = pages st'
      ∧ length (writes st') = (pages st' / 10)%nat
      ∧ Forall (λ t, t `prefix_of` rows st') (writes st').
Proof.
  induction fuel as [|fuel IH]; intros st Hreq Hlen Hpre st'; [done|].
  simpl. destruct (post_gql (pages st) (cursor st)) as [blk|]; [|done].
  set (rows' := rows st ++ kept_rows blk).
  set (writes' := if (S (pages st) mod 10 =? 0)%nat
                  then writes st ++ [rows'] else writes st).
  assert (length (requests st ++ [cursor st]) = S (pages st)) as Hreq'
    by (rewrite length_app; simpl; lia).
  assert (length writes' = (S (pages st) / 10)%nat) as Hlen'.
  { subst writes'.
    pose proof (Nat.div_mod_eq (pages st) 10) as H1.
    pose proof (Nat.div_mod_eq (S (pages st)) 10) as H2.
    pose proof (Nat.mod_upper_bound (pages st) 10) as H3.
    pose proof (Nat.mod_upper_bound (S (pages st)) 10) as H4.
    destruct (Nat.eqb_spec (S (pages st) mod 10) 0) as [Hz|Hnz].
    - rewrite length_app. cbn [length]. lia.
    - lia. }
  assert (Forall (λ t, t `prefix_of` rows') writes') as Hpre'.
  { subst writes'. assert (Forall (λ t, t `prefix_of` rows') (writes st)).
    { eapply Forall_impl; [done|]. intros t Ht. by apply prefix_app_r. }
    destruct (_ =? _)%nat; [|done].
    apply Forall_app; split; [done|]. by apply Forall_singleton. }
  destruct (FetchData.kept_this_page SINCE_DT blk =? 0)%nat.
  - by intros [= <-].
  - by apply IH.
Qed.

(** A run that ends well has stopped on a [break], with rows, and saves
    what the final filter leaves of them. *)
Lemma saved_break (fuel : nat) (df : list ActivityRecord) :
  outcome (main fuel) = Saved df →
  ∃ st, fetch_loop fuel init = Break st ∧ df = final_filter (rows st)
    ∧ rows st ≠ []
    ∧ sent (main fuel) = requests st
    ∧ written (main fuel) = writes st ++ [df].
Proof.
  unfold FetchData.main.
  destruct (fetch_loop fuel init) as [st|st|st]; simpl; [done| |done].
  destruct (rows st) as [|r0 rs] eqn:Hrows; simpl; [done|].
  intros [= <-]. exists st. by rewrite Hrows.
Qed.

(** A run that saves a table after [n] requests has written a checkpoint
    after every tenth page and then the table, [n / 10 + 1] tables in all.
    Every checkpoint is a prefix of the rows the loop has collected, and
    the table, written last, is a sub-list of those rows: the final filter
    takes rows away, wherever they stand, and adds or moves none. *)
Theorem checkpoints_are_prefixes (fuel : nat) (df : list ActivityRecord) :
  outcome (main fuel) = Saved df →
  ∃ st, fetch_loop fuel init = Break st
    ∧ length (written (main fuel)) = (length (sent (main fuel)) / 10 + 1)%nat
    ∧ written (main fuel) = writes st ++ [df]
    ∧ Forall (λ t, t `prefix_of` rows st) (writes st)
    ∧ df `sublist_of` rows st.
Proof.
  intros Hsaved.
  destruct (saved_break fuel df Hsaved) as (st & Hloop & -> & _ & -> & ->).
  destruct (checkpoints_inv fuel init) with (st' := st)
    as (Hreq & Hlen & Hpre); [done..|].
  exists st. split; [done|].
  rewrite length_app, Hreq, Hlen. simpl. split; [done|]. split; [done|].
  split; [done|]. apply (final_filter_sublist SINCE_DT to_datetime).
Qed.

End FetchMore.

(** ** More properties of the scoring functions *)

Section ScoreFunctions.

Import Score.

(** The size bucket is S up to 5 files and 200 changed lines, L beyond 20
    files or 800 changed lines whatever the other measure is, M between
    the two; a change with more files and more changed lines never gets a
    smaller bonus. *)
Theorem size_bucket_thresholds (changed_files additions deletions : Z) :
  (pr_size_bucket changed_files additions deletions = "S"
     ↔ changed_files ≤ 5 ∧ additions + deletions ≤ 200)
  ∧ (pr_size_bucket changed_files additions deletions = "L"
     ↔ 20 < changed_files ∨ 800 < additions + deletions)
  ∧ (pr_size_bucket changed_files additions deletions = "M"
     ↔ (5 < changed_files ∨ 200 < additions + deletions)
       ∧ changed_files ≤ 20 ∧ additions + deletions ≤ 800)
  ∧ ∀ changed_files' additions' deletions',
      changed_files ≤ changed_files' →
      additions + deletions ≤ additions' + deletions' →
      Expected.bucket_pts (pr_size_bucket changed_files additions deletions)
      ≤ Expected.bucket_pts
          (pr_size_bucket changed_files' additions' deletions').
Proof.
  unfold pr_size_bucket.
  split; [|split; [|split]].
  1-3: destruct (Z.leb_spec changed_files 5),
         (Z.leb_spec (additions + deletions) 200),
         (Z.leb_spec changed_files 20),
         (Z.leb_spec (additions + deletions) 800); simpl;
    intuition (discriminate || lia).
  intros f' a' d' Hf Hc.
  destruct (Z.leb_spec changed_files 5),
    (Z.leb_spec (additions + deletions) 200),
    (Z.leb_spec changed_files 20),
    (Z.leb_spec (additions + deletions) 800),
    (Z.leb_spec f' 5), (Z.leb_spec (a' + d') 200),
    (Z.leb_spec f' 20), (Z.leb_spec (a' + d') 800); simpl;
    unfold Expected.bucket_pts, W_SIZE_M, W_SIZE_L; simpl; lia.
Qed.

Lemma size_pts_cases (pr : ActivityRecord) :
  size_pts pr = 0 ∨ size_pts pr = 4 ∨ size_pts pr = 8.
Proof.
  unfold size_pts, pr_size_bucket.
  destruct (_ && _); [by left|]. destruct (_ && _); [by right; left|].
  by right; right.
Qed.

(** A record is worth 10 to 26 points before the multiplier, and its score
    is a float, a number and not a NaN, between 10.0 and the product of 26
    and 1.3. *)
Theorem record_score_bounds (pr : ActivityRecord) :
  10 ≤ accumulated pr ≤ 26
  ∧ ∃ f, pr_points pr = PFloat f
      ∧ SFeqb f f = true
      ∧ Py.flt f (Py.float_of_int 10) = false
      ∧ Py.flt (SFmul Py.prec Py.emax (Py.float_of_int 26) (Py.literal 13 10))
          f = false.
Proof.
  split.
  - unfold accumulated, W_BASE_PR, W_TESTS_DOCS, W_BUGFIX, W_INFRA_TOOLING.
    destruct (size_pts_cases pr) as [-> | [-> | ->]];
      destruct (has_tests_or_docs (df_files pr)), (is_bugfix (df_title pr)),
        (is_infra_or_tooling (df_files pr));
      lia.
  - rewrite pr_points_accumulated, core_multiplier_first_match.
    eexists. split; [done|]. unfold accumulated.
    destruct (size_pts_cases pr) as [-> | [-> | ->]];
      destruct (has_tests_or_docs (df_files pr)), (is_bugfix (df_title pr)),
        (is_infra_or_tooling (df_files pr)),
        (existsb (Re.search_prefix_dir CORE_AREA) (df_files pr)),
        (existsb (Re.search_prefix_dir OPS_AREA) (df_files pr));
      by vm_compute.
Qed.

(** The dot of [.github] in the second multiplier pattern is not escaped:
    a path whose first directory is any character but a newline followed by
    [github] gets the multiplier 1.25, as a path under [.github/] does. *)
Theorem any_character_before_github (c : ascii) (rest : string) :
  c ≠ Re.newline →
  core_multiplier [String c ("github/" ++ rest)%string] = Py.literal 125 100.
Proof.
  intros Hc. rewrite core_multiplier_first_match.
  destruct c as [[] [] [] [] [] [] [] []];
    first [by vm_compute | by destruct Hc].
Qed.

Lemma any_character_before_github_witness :
  "x"%char ≠ Re.newline
  ∧ core_multiplier ["xgithub/workflows/ci.yml"] = Py.literal 125 100.
Proof.
  split; [discriminate|].
  apply (any_character_before_github "x" "workflows/ci.yml"). discriminate.
Defined.

Lemma existsb_elements {A : Type} (f : A → bool) (l l' : list A) :
  (∀ x, x ∈ l ↔ x ∈ l') → existsb f l = existsb f l'.
Proof.
  intros Hsame. apply eq_true_iff_eq. rewrite !existsb_exists.
  split; intros (x & Hx & Hf); exists x; split; try done;
    apply list_elem_of_In; apply Hsame; by apply list_elem_of_In.
Qed.

(** A record's score depends on which paths it touches, not on their order
    or on how often one is listed. *)
Theorem score_depends_on_the_set_of_paths
    (pr : ActivityRecord) (paths : list string) :
  (∀ p, p ∈ df_files pr ↔ p ∈ paths) →
  pr_points (Expected.with_files pr paths) = pr_points pr
  ∧ is_infra_or_tooling (df_files (Expected.with_files pr paths))
    = is_infra_or_tooling (df_files pr).
Proof.
  intros Hsame.
  assert (∀ f, existsb f (df_files (Expected.with_files pr paths))
               = existsb f (df_files pr)) as Hex.
  { intros f. apply existsb_elements. intros p. symmetry. apply Hsame. }
  split; [|apply Hex].
  rewrite !pr_points_accumulated, !core_multiplier_first_match.
  unfold accumulated, has_tests_or_docs, is_infra_or_tooling.
  rewrite !Hex. done.
Qed.

Lemma score_depends_on_the_set_of_paths_witness :
  (∀ p, p ∈ df_files Sample.alice_pr ↔ p ∈ ["src/app.py"; "src/app.py"])
  ∧ pr_points (Expected.with_files Sample.alice_pr ["src/app.py"; "src/app.py"])
    = pr_points Sample.alice_pr
  ∧ is_infra_or_tooling
      (df_files (Expected.with_files Sample.alice_pr
                   ["src/app.py"; "src/app.py"]))
    = is_infra_or_tooling (df_files Sample.alice_pr).
Proof.
  assert (∀ p, p ∈ df_files Sample.alice_pr ↔ p ∈ ["src/app.py"; "src/app.py"])
    as Hsame.
  { intros p. change (df_files Sample.alice_pr) with ["src/app.py"].
    rewrite !elem_of_cons. tauto. }
  split; [exact Hsame|].
  apply (score_depends_on_the_set_of_paths Sample.alice_pr
           ["src/app.py"; "src/app.py"] Hsame).
Defined.

(** *** Matching without regard to case *)

Lemma lower_facts (c : ascii) :
  Re.lower (Re.lower c) = Re.lower c
  ∧ Ascii.eqb (Re.lower c) Re.slash = Ascii.eqb c Re.slash
  ∧ Ascii.eqb (Re.lower c) Re.newline = Ascii.eqb c Re.newline
  ∧ Re.is_word (Re.lower c) = Re.is_word c.
Proof. destruct c as [[] [] [] [] [] [] [] []]; by vm_compute. Qed.

Lemma match_word_lowercase (w : list Re.atom) :
  ∀ s, Re.match_word true w (Expected.lowercase s)
       = Expected.lowercase <$> Re.match_word true w s.
Proof.
  induction w as [|a w IH]; intros s; [done|].
  destruct s as [|c s]; [done|]. simpl.
  assert (Re.match_atom true a (Re.lower c) = Re.match_atom true a c) as ->.
  { destruct (lower_facts c) as (Hi & _ & Hn & _).
    destruct a as [x|]; simpl; [by rewrite Hi | by rewrite Hn]. }
  destruct (Re.match_atom true a c); [apply IH | done].
Qed.

Lemma slash_or_end_lowercase (s : string) :
  Re.slash_or_end (Expected.lowercase s) = Re.slash_or_end s.
Proof.
  destruct s as [|c [|c' s]]; simpl; [done| |];
    destruct (lower_facts c) as (_ & -> & Hn & _); by rewrite ?Hn.
Qed.

Lemma no_word_next_lowercase (s : string) :
  Re.no_word_next (Expected.lowercase s) = Re.no_word_next s.
Proof.
  destruct s as [|c s]; simpl; [done|].
  by destruct (lower_facts c) as (_ & _ & _ & ->).
Qed.

Lemma existsb_same {A : Type} (f g : A → bool) (l : list A) :
  (∀ x, f x = g x) → existsb f l = existsb g l.
Proof. intros Hfg. induction l as [|x l IH]; simpl; [done|]. by rewrite Hfg, IH. Qed.

Lemma search_segment_lowercase (words : list (list Re.atom)) (s : string) :
  Re.search_segment words (Expected.lowercase s) = Re.search_segment words s.
Proof.
  unfold Re.search_segment. generalize true as start.
  induction s as [|c s IH]; intros start; simpl.
  - done.
  - destruct (lower_facts c) as (_ & -> & _ & _). rewrite IH. f_equal. f_equal.
    apply existsb_same. intros w.
    pose proof (match_word_lowercase w (String c s)) as Hw. simpl in Hw.
    rewrite Hw. destruct (Re.match_word true w (String c s)); simpl; [|done].
    apply slash_or_end_lowercase.
Qed.

Lemma search_word_lowercase (words : list (list Re.atom)) (s : string) :
  Re.search_word words (Expected.lowercase s) = Re.search_word words s.
Proof.
  unfold Re.search_word. generalize false as prev.
  induction s as [|c s IH]; intros prev; simpl.
  - done.
  - destruct (lower_facts c) as (_ & _ & _ & ->). rewrite IH. f_equal. f_equal.
    apply existsb_same. intros w.
    pose proof (match_word_lowercase w (String c s)) as Hw. simpl in Hw.
    rewrite Hw. destruct (Re.match_word true w (String c s)); simpl; [|done].
    apply no_word_next_lowercase.
Qed.

(** The bug-fix words in a title and the tests/docs and infra/tooling
    directories in a path are looked for without regard to case: two texts
    that differ in the case of their letters only are matched alike. *)
Theorem matching_ignores_case (s s' : string) :
  Expected.lowercase s = Expected.lowercase s' →
  is_bugfix s = is_bugfix s'
  ∧ has_tests_or_docs [s] = has_tests_or_docs [s']
  ∧ is_infra_or_tooling [s] = is_infra_or_tooling [s'].
Proof.
  intros Hsame. unfold is_bugfix, has_tests_or_docs, is_infra_or_tooling.
  simpl.
  rewrite <-(search_word_lowercase _ s), <-(search_word_lowercase _ s').
  rewrite <-(search_segment_lowercase TEST_DOC_RE s),
    <-(search_segment_lowercase TEST_DOC_RE s').
  rewrite <-(search_segment_lowercase INFRA_RE s),
    <-(search_segment_lowercase INFRA_RE s').
  by rewrite Hsame.
Qed.

Lemma matching_ignores_case_witness :
  Expected.lowercase "Fix CRASH in Docs/CI" = Expected.lowercase "fix crash in docs/ci"
  ∧ is_bugfix "Fix CRASH in Docs/CI" = is_bugfix "fix crash in docs/ci"
  ∧ has_tests_or_docs ["Fix CRASH in Docs/CI"]
    = has_tests_or_docs ["fix crash in docs/ci"]
  ∧ is_infra_or_tooling ["Fix CRASH in Docs/CI"]
    = is_infra_or_tooling ["fix crash in docs/ci"].
Proof.
  split; [reflexivity|].
  apply (matching_ignores_case "Fix CRASH in Docs/CI" "fix crash in docs/ci").
  reflexivity.
Defined.

End ScoreFunctions.

(** ** More properties of the scoring engine *)

Section ScoreEngine.

Import Score.

(** *** The evidence kept per contributor *)

Lemma top_prs_fold (df : list ActivityRecord) :
  ∀ acc k,
    author_top_prs (foldl score_pr acc df) !! k =
      match records_of k df with
      | [] => author_top_prs acc !! k
      | mine => Some (default [] (author_top_prs acc !! k)
                      ++ (Expected.top_pr <$> mine))
      end.
Proof.
  unfold records_of.
  induction df as [|pr df IH]; intros acc k; [done|].
  simpl. rewrite IH, filter_cons. simpl.
  destruct (decide (df_author pr = k)) as [->|Hne].
  - rewrite lookup_insert_eq. simpl.
    destruct (filter _ df); simpl; by rewrite <-?app_assoc.
  - by rewrite lookup_insert_ne.
Qed.

Lemma top_reviews_fold (rvs : list ReviewRow) :
  ∀ acc k,
    reviewer_top_reviews (foldl score_review acc rvs) !! k =
      match reviews_of k rvs with
      | [] => reviewer_top_reviews acc !! k
      | mine => Some (default [] (reviewer_top_reviews acc !! k)
                      ++ (Expected.top_review <$> mine))
      end.
Proof.
  unfold reviews_of.
  induction rvs as [|rv rvs IH]; intros acc k; [done|].
  simpl. rewrite IH, filter_cons. simpl.
  destruct (decide (rr_reviewer rv = k)) as [->|Hne].
  - rewrite lookup_insert_eq. simpl.
    destruct (filter _ rvs); simpl; by rewrite <-?app_assoc.
  - by rewrite lookup_insert_ne.
Qed.

Lemma early_top_reviews (l : list ReviewRow) :
  length (filter (λ x, tr_early x = true) (Expected.top_review <$> l))
  = length (filter (λ rv, rr_early rv = true) l).
Proof.
  induction l as [|rv l IH]; [done|].
  rewrite fmap_cons, !filter_cons. simpl.
  destruct (decide (rr_early rv = true)); simpl; by rewrite IH.
Qed.

Lemma reviewer_score_positive (rvs : list ReviewRow) (k : string) :
  (0 <? default 0 (reviewer_scores (score_reviews rvs) !! k)) =
    match reviews_of k rvs with
    | [] => false
    | _ => true
    end.
Proof.
  rewrite reviewer_scores_total.
  pose proof (review_total_pos k rvs) as Hpos.
  destruct (reviews_of k rvs) as [|rv l]; [done|]. simpl.
  apply Z.ltb_lt, Hpos. done.
Qed.

(** The bullets the engine writes for a row are those its evidence in the
    activity table gives. *)
Lemma bullets_expected (df : list ActivityRecord) (row : Out.row) :
  bullets (score_prs df) (score_reviews (review_rows df)) row
  = Expected.bullets df row.
Proof.
  unfold bullets, Expected.bullets, Expected.evidence, Expected.early_of.
  rewrite reviewer_score_positive.
  unfold score_prs, score_reviews.
  rewrite top_prs_fold, top_reviews_fold.
  cbn [author_top_prs reviewer_top_reviews no_authors no_reviewers].
  rewrite !lookup_empty.
  destruct (records_of (Out.engineer row) df) as [|pr mine];
    destruct (reviews_of (Out.engineer row) (review_rows df)) as [|rv rvs];
    cbn [default from_option id app].
  - done.
  - rewrite length_fmap, early_top_reviews. done.
  - by rewrite length_fmap.
  - rewrite !length_fmap, early_top_reviews. done.
Qed.

(** Every row of the scored table is the row of a contributor. *)
Lemma main_row_inv iter (df : list ActivityRecord) (out : list Out.row)
    (row : Out.row) :
  set_order iter → main iter df = Some out → row ∈ out →
  Out.engineer row ∈ authors df ∪ reviewers df
  ∧ row = final_row df (Out.engineer row).
Proof.
  intros Hiter Hmain Hrow.
  rewrite (main_perm iter df out Hiter Hmain) in Hrow.
  apply list_elem_of_fmap in Hrow as (eng & -> & Heng).
  apply elem_of_elements in Heng.
  destruct (final_row_total df eng) as (-> & _). done.
Qed.

Lemma final_row_why (df : list ActivityRecord) (eng : string) :
  Out.why (final_row df eng) =
    join nl ((λ b, ("- " ++ b)%string) <$>
               take 3 (Expected.bullets df (final_row df eng))).
Proof. unfold final_row, with_why. simpl. by rewrite bullets_expected. Qed.

Lemma evidence_size (df : list ActivityRecord) (eng : string) (l : spec_float) :
  eng ∈ authors df ∪ reviewers df →
  (1 ≤ length (Expected.evidence df eng l) ≤ 3)%nat.
Proof.
  intros Hin. unfold Expected.evidence.
  pose proof (records_of_nil eng df) as Hrec.
  pose proof (reviews_of_nil eng (review_rows df)) as Hrev.
  assert (records_of eng df ≠ [] ∨ reviews_of eng (review_rows df) ≠ [])
    as Hsome.
  { apply elem_of_union in Hin as [Ha|Hr].
    - left. intros Hnil. by apply Hrec in Hnil.
    - right. intros Hnil. apply Hrev in Hnil. apply Hnil.
      unfold reviewers in Hr. by apply elem_of_list_to_set in Hr. }
  destruct (records_of eng df), (reviews_of eng (review_rows df)),
    (Py.flt Py.zero l); simpl; try lia; by destruct Hsome.
Qed.

Lemma evidence_no_fallback (df : list ActivityRecord) (eng : string)
    (l : spec_float) :
  Expected.fallback ∉ Expected.evidence df eng l.
Proof.
  unfold Expected.evidence. intros Hin.
  apply elem_of_app in Hin as [Hin|Hin]; [|apply elem_of_app in Hin as [Hin|Hin]].
  - destruct (records_of eng df); [by apply elem_of_nil in Hin|].
    apply list_elem_of_singleton in Hin. discriminate Hin.
  - destruct (reviews_of eng (review_rows df)); [by apply elem_of_nil in Hin|].
    apply list_elem_of_singleton in Hin. discriminate Hin.
  - destruct (Py.flt Py.zero l); [|by apply elem_of_nil in Hin].
    apply list_elem_of_singleton in Hin. discriminate Hin.
Qed.

(** The evidence column of every row of the scored table: one bullet per
    kind of evidence the contributor has, in the order shipped, reviewed,
    leverage, with the number of their records, the numbers of their scored
    reviews and of the early ones among them; there are one to three
    bullets, and the fallback bullet is never among them. *)
Theorem why_column iter (df : list ActivityRecord) (out : list Out.row)
    (row : Out.row) :
  set_order iter → main iter df = Some out → row ∈ out →
  Out.why row =
    join nl ((λ b, ("- " ++ b)%string) <$>
               Expected.evidence df (Out.engineer row) (Out.leadership row))
  ∧ (1 ≤ length (Expected.evidence df (Out.engineer row)
                   (Out.leadership row)) ≤ 3)%nat
  ∧ Expected.fallback
    ∉ Expected.evidence df (Out.engineer row) (Out.leadership row).
Proof.
  intros Hiter Hmain Hrow.
  destruct (main_row_inv iter df out row Hiter Hmain Hrow) as [Heng Heq].
  pose proof (evidence_size df (Out.engineer row) (Out.leadership row) Heng)
    as Hsize.
  split; [|split; [done | apply evidence_no_fallback]].
  rewrite Heq at 1. rewrite final_row_why. rewrite <-Heq.
  unfold Expected.bullets.
  destruct (Expected.evidence df (Out.engineer row) (Out.leadership row))
    as [|b bs] eqn:Hev; [simpl in Hsize; lia|].
  by rewrite take_ge by lia.
Qed.

Lemma review_points_count (l : list ReviewRow) :
  foldr Z.add 0 (review_points <$> l)
  = W_REVIEW * Z.of_nat (length l)
    + W_REVIEW_EARLY
      * Z.of_nat (length (filter (λ rv, rr_early rv = true) l)).
Proof.
  induction l as [|rv l IH]; [done|].
  rewrite fmap_cons, filter_cons. cbn [foldr]. rewrite IH.
  unfold review_points, W_REVIEW, W_REVIEW_EARLY.
  destruct (rr_early rv); [rewrite decide_True by done | rewrite decide_False by done];
    cbn [length]; lia.
Qed.

(** The reviews column of every row of the scored table is 2 points for
    each scored review of the contributor and 1 more for each early one:
    the numbers of the review bullet. *)
Theorem reviews_column iter (df : list ActivityRecord) (out : list Out.row)
    (row : Out.row) :
  set_order iter → main iter df = Some out → row ∈ out →
  Out.reviews row =
    Py.float_of_int
      (W_REVIEW
       * Z.of_nat (length (reviews_of (Out.engineer row) (review_rows df)))
       + W_REVIEW_EARLY
         * Z.of_nat (length (Expected.early_of (Out.engineer row)
                               (review_rows df)))).
Proof.
  intros Hiter Hmain Hrow.
  destruct (main_row_inv iter df out row Hiter Hmain Hrow) as [_ Heq].
  rewrite Heq at 1.
  destruct (final_row_total df (Out.engineer row)) as (_ & _ & _ & ->).
  unfold review_total, Expected.early_of. by rewrite review_points_count.
Qed.

(** *** The total *)

Lemma foldl_add_float (l : list pynum) :
  ∀ g, ∃ f, foldl Py.add (PFloat g) l = PFloat f.
Proof.
  induction l as [|x l IH]; intros g; simpl; [by eexists|]. apply IH.
Qed.

Lemma sum_points_bucket (l : list ActivityRecord) :
  Expected.bucket (sum_points (pr_points <$> l)).
Proof.
  unfold sum_points. destruct l as [|pr l]; [by left|]. right.
  rewrite fmap_cons. cbn [foldl]. rewrite pr_points_accumulated.
  apply foldl_add_float.
Qed.

Lemma float_of_int_shape (z : Z) :
  0 < z →
  (∃ m e, Py.float_of_int z = S754_finite false m e)
  ∨ Py.float_of_int z = S754_infinity false.
Proof.
  destruct z as [|p|p]; [lia | intros _ | lia].
  unfold Py.float_of_int, binary_normalize, binary_round.
  destruct (shl_align p 0 _) as [mz ez] eqn:Hal.
  apply binary_round_aux_sign.
  unfold shl_align in Hal.
  destruct (fexp Py.prec Py.emax (Z.pos (digits2_pos p) + 0) - 0) eqn:Hd;
    injection Hal as <- <-;
    unfold fexp, emin, Py.prec, Py.emax in *; lia.
Qed.

Lemma float_add_buckets (x y : pynum) :
  Expected.bucket x → Expected.bucket y →
  Py.float (Py.add x y)
  = SFadd Py.prec Py.emax (Py.float x) (Py.float y)
  ∧ Expected.bucket (Py.add x y).
Proof.
  intros [-> | [f ->]] [-> | [g ->]]; simpl; split;
    try done; try (by left); right; by eexists.
Qed.

Lemma engineer_row_impact (df : list ActivityRecord) (eng : string) :
  let row := engineer_row (score_prs df) (score_reviews (review_rows df)) eng in
  Out.impact_score row =
    SFadd Py.prec Py.emax
      (SFadd Py.prec Py.emax (Out.delivery row) (Out.leadership row))
      (Out.reviews row).
Proof.
  unfold engineer_row. cbn [Out.impact_score Out.delivery Out.leadership
                            Out.reviews].
  pose proof (breakdown_total df eng) as Hbd.
  rewrite reviewer_scores_total.
  pose proof (review_total_pos eng (review_rows df)) as Hpos.
  set (d := match author_breakdown (score_prs df) !! eng with
            | Some bd => bd_delivery bd
            | None => PFloat Py.zero
            end).
  set (l := match author_breakdown (score_prs df) !! eng with
            | Some bd => bd_leadership bd
            | None => PFloat Py.zero
            end).
  assert (Expected.bucket d ∧ Expected.bucket l) as [Hd Hl].
  { subst d l. destruct (author_breakdown (score_prs df) !! eng) as [bd|].
    - destruct Hbd as (_ & -> & ->). split; apply sum_points_bucket.
    - split; right; by eexists. }
  destruct (float_add_buckets d l Hd Hl) as [Hdl Hs].
  rewrite <-Hdl.
  destruct (reviews_of eng (review_rows df)) as [|rv rvs].
  - destruct Hs as [-> | [f ->]]; done.
  - specialize (Hpos ltac:(done)).
    destruct Hs as [-> | [f ->]]; [|done].
    cbn [Py.add Py.float]. rewrite Z.add_0_l.
    destruct (float_of_int_shape _ Hpos) as [(m & e & ->) | ->]; done.
Qed.

(** The total of every row of the scored table is the float sum of its
    three columns, delivery and leadership first, then reviews. *)
Theorem impact_is_the_sum_of_the_columns
    iter (df : list ActivityRecord) (out : list Out.row) (row : Out.row) :
  set_order iter → main iter df = Some out → row ∈ out →
  Out.impact_score row =
    SFadd Py.prec Py.emax
      (SFadd Py.prec Py.emax (Out.delivery row) (Out.leadership row))
      (Out.reviews row).
Proof.
  intros Hiter Hmain Hrow.
  destruct (main_row_inv iter df out row Hiter Hmain Hrow) as [_ Heq].
  rewrite Heq. apply (engineer_row_impact df (Out.engineer row)).
Qed.

(** *** What the scores do not depend on *)

Lemma scored_part_reviews (pr : ActivityRecord) :
  omap (review_row (Expected.scored_part pr))
    (df_reviews (Expected.scored_part pr))
  = Expected.without_link <$> omap (review_row pr) (df_reviews pr).
Proof.
  assert (∀ rv, review_row (Expected.scored_part pr) (Expected.scored_review rv)
                = Expected.without_link <$> review_row pr rv) as Hrow.
  { intros rv. unfold review_row. simpl. by destruct (submittedAt rv). }
  unfold df_reviews. simpl. destruct (reviews pr) as [rvs|]; [|done]. simpl.
  induction rvs as [|rv rvs IH]; [done|].
  rewrite filter_cons.
  destruct (submittedAt rv) as [t|] eqn:Ht.
  - destruct (review_row pr rv) as [row|] eqn:Hr;
      [|unfold review_row in Hr; by rewrite Ht in Hr].
    rewrite decide_True by (by eexists). rewrite fmap_cons.
    cbn [omap list_omap]. rewrite Hrow, Hr.
    cbn [fmap option_fmap option_map]. rewrite fmap_cons. f_equal. apply IH.
  - assert (review_row pr rv = None) as Hr
      by (unfold review_row; by rewrite Ht).
    rewrite decide_False by (by intros [? ?]). cbn [omap list_omap].
    rewrite Hr. apply IH.
Qed.

Lemma review_rows_scored_part (df : list ActivityRecord) :
  review_rows (Expected.scored_part <$> df)
  = Expected.without_link <$> review_rows df.
Proof.
  unfold review_rows. induction df as [|pr df IH]; [done|].
  rewrite fmap_cons. cbn [mbind list_bind].
  rewrite fmap_app, <-IH. f_equal. apply scored_part_reviews.
Qed.

Lemma reviews_of_without_link (k : string) (l : list ReviewRow) :
  reviews_of k (Expected.without_link <$> l)
  = Expected.without_link <$> reviews_of k l.
Proof.
  unfold reviews_of. induction l as [|rv l IH]; [done|].
  rewrite fmap_cons, !filter_cons. simpl.
  destruct (decide (rr_reviewer rv = k)); rewrite IH; done.
Qed.

Lemma early_without_link (l : list ReviewRow) :
  length (filter (λ rv, rr_early rv = true) (Expected.without_link <$> l))
  = length (filter (λ rv, rr_early rv = true) l).
Proof.
  induction l as [|rv l IH]; [done|].
  rewrite fmap_cons, !filter_cons. simpl.
  destruct (decide (rr_early rv = true)); simpl; by rewrite IH.
Qed.

Lemma points_without_link (l : list ReviewRow) :
  review_points <$> (Expected.without_link <$> l) = review_points <$> l.
Proof. rewrite <-list_fmap_compose. by apply list_fmap_ext. Qed.

Lemma records_of_scored_part (k : string) (df : list ActivityRecord) :
  records_of k (Expected.scored_part <$> df)
  = Expected.scored_part <$> records_of k df.
Proof.
  unfold records_of. induction df as [|pr df IH]; [done|].
  rewrite fmap_cons, !filter_cons.
  change (df_author (Expected.scored_part pr)) with (df_author pr).
  destruct (decide (df_author pr = k)); rewrite IH; done.
Qed.

Lemma buckets_scored_part (l : list ActivityRecord) :
  ∀ bd,
    foldl (λ bd pr, attribute (is_infra_or_tooling (df_files pr))
                      (pr_points pr) bd) bd (Expected.scored_part <$> l)
    = foldl (λ bd pr, attribute (is_infra_or_tooling (df_files pr))
                        (pr_points pr) bd) bd l.
Proof.
  induction l as [|pr l IH]; intros bd; [done|].
  rewrite fmap_cons. cbn [foldl]. rewrite IH. done.
Qed.

Lemma universe_scored_part (df : list ActivityRecord) :
  authors (Expected.scored_part <$> df) = authors df
  ∧ reviewers (Expected.scored_part <$> df) = reviewers df.
Proof.
  unfold authors, reviewers. rewrite review_rows_scored_part.
  rewrite <-!list_fmap_compose. split; f_equal; by apply list_fmap_ext.
Qed.

Lemma engineer_row_scored_part (df : list ActivityRecord) (eng : string) :
  engineer_row (score_prs (Expected.scored_part <$> df))
    (score_reviews (review_rows (Expected.scored_part <$> df))) eng
  = engineer_row (score_prs df) (score_reviews (review_rows df)) eng.
Proof.
  unfold engineer_row.
  assert (author_breakdown (score_prs (Expected.scored_part <$> df)) !! eng
          = author_breakdown (score_prs df) !! eng) as ->.
  { unfold score_prs. rewrite !breakdown_fold, records_of_scored_part.
    destruct (records_of eng df) as [|pr mine]; [done|].
    rewrite fmap_cons. f_equal.
    apply (buckets_scored_part (pr :: mine)). }
  assert (reviewer_scores
            (score_reviews (review_rows (Expected.scored_part <$> df))) !! eng
          = reviewer_scores (score_reviews (review_rows df)) !! eng) as ->.
  { rewrite !reviewer_scores_total. unfold review_total.
    rewrite review_rows_scored_part, reviews_of_without_link,
      points_without_link.
    by destruct (reviews_of eng (review_rows df)). }
  done.
Qed.

Lemma with_why_scored_part (df : list ActivityRecord) (row : Out.row) :
  with_why (score_prs (Expected.scored_part <$> df))
    (score_reviews (review_rows (Expected.scored_part <$> df))) row
  = with_why (score_prs df) (score_reviews (review_rows df)) row.
Proof.
  unfold with_why. rewrite !bullets_expected. do 3 f_equal.
  unfold Expected.bullets, Expected.evidence, Expected.early_of.
  rewrite records_of_scored_part, review_rows_scored_part,
    reviews_of_without_link, early_without_link.
  destruct (records_of (Out.engineer row) df),
    (reviews_of (Out.engineer row) (review_rows df));
    rewrite ?fmap_nil, ?fmap_cons; cbn [length]; by rewrite ?length_fmap.
Qed.

(** The scored table is computed from the author, the title, the paths,
    the size, the creation time of the records and from the reviewer and
    the submission time of the reviews that have one: a table stripped of
    all the rest (the number, the link, the labels, the comment count, the
    merge and update times, the disposition of the reviews, the reviews
    without submission time) gets the very same scored table. *)
Theorem scores_depend_on_the_scored_part_only
    iter (df : list ActivityRecord) :
  main iter (Expected.scored_part <$> df) = main iter df.
Proof.
  unfold main.
  rewrite !dom_author_scores, !dom_reviewer_scores.
  destruct (universe_scored_part df) as [-> ->].
  erewrite (list_fmap_ext _ (engineer_row (score_prs df)
                               (score_reviews (review_rows df))));
    [|intros ? eng _; apply engineer_row_scored_part].
  destruct (_ <$> iter _) as [|r0 rows]; [done|]. f_equal.
  apply list_fmap_ext. intros ? row _. apply with_why_scored_part.
Qed.

(** *** The empty table *)

(** The engine fails, with the [KeyError] of the sort, on the empty
    activity table and on no other. *)
Theorem empty_table_is_an_error iter (df : list ActivityRecord) :
  set_order iter → main iter df = None ↔ df = [].
Proof.
  intros Hiter. split.
  - intros Hnone. destruct df as [|pr df]; [done|].
    destruct (main_defined iter (pr :: df) Hiter) as [out Hout]; [done|].
    by rewrite Hout in Hnone.
  - intros ->. unfold main.
    pose proof (Hiter (dom (author_scores (score_prs []))
                       ∪ dom (reviewer_scores (score_reviews (review_rows [])))))
      as Hp.
    change (dom (author_scores (score_prs []))
            ∪ dom (reviewer_scores (score_reviews (review_rows []))))
      with ((∅ : gset string) ∪ ∅) in *.
    rewrite (left_id_L ∅ (∪)), elements_empty in Hp.
    apply Permutation_nil_r in Hp. rewrite (left_id_L ∅ (∪)), Hp. done.
Qed.

End ScoreEngine.

(** ** The two stages together, and the samples *)

Section Together.

Import FetchData.

(** *** The table read from the file *)

Lemma read_parquet_authors (df : list ActivityRecord) :
  Score.authors (Parquet.read_parquet df) = Score.authors df.
Proof.
  unfold Score.authors, Parquet.read_parquet.
  by rewrite <-list_fmap_compose.
Qed.

Lemma read_parquet_review_rows (df : list ActivityRecord) :
  Score.review_rows (Parquet.read_parquet df) = [].
Proof.
  unfold Score.review_rows, Parquet.read_parquet.
  induction df as [|pr df IH]; [done|].
  rewrite fmap_cons. cbn [mbind list_bind]. by rewrite IH.
Qed.

(** Scored from the file, a table has a row for each author and for nobody
    else, and no row has review points. *)
Lemma read_parquet_main
    (iter : gset string → list string) (df : list ActivityRecord)
    (out : list Score.Out.row) :
  Score.set_order iter →
  Score.main iter (Parquet.read_parquet df) = Some out →
  Score.Out.engineer <$> out ≡ₚ elements (Score.authors df)
  ∧ ∀ row, row ∈ out → Score.Out.reviews row = Py.zero.
Proof.
  intros Hiter Hmain. split.
  - rewrite (main_engineers iter _ out Hiter Hmain).
    rewrite read_parquet_authors. unfold Score.reviewers.
    rewrite read_parquet_review_rows. simpl.
    by rewrite (right_id_L ∅ (∪)).
  - intros row Hrow.
    rewrite (main_perm iter _ out Hiter Hmain) in Hrow.
    apply list_elem_of_fmap in Hrow as (eng & -> & _).
    destruct (final_row_total (Parquet.read_parquet df) eng)
      as (_ & _ & _ & ->).
    by rewrite read_parquet_review_rows.
Qed.

Lemma read_parquet_defined
    (iter : gset string → list string) (df : list ActivityRecord) :
  Score.set_order iter → df ≠ [] →
  is_Some (Score.main iter (Parquet.read_parquet df)).
Proof.
  intros Hiter Hdf. apply main_defined; [done|].
  unfold Parquet.read_parquet. by destruct df.
Qed.

(** C7: the engine gives a row to each contributor of the union of the
    authors and of the review submitters when the cells of the table hold
    lists, and the table that [score.py] reads holds none.  Read from the
    file a table is scored with a row for each author and for nobody else:
    who submitted reviews and authored nothing has no row.  So it is on the
    table of the upstream where [bob] reviews a record of [alice]: [bob] is
    a submitter of the table saved and no author of it; scored as it is in
    memory the table has his row, with no delivery, no leadership and 3
    review points; scored as the program does, from the file, it has the
    row of [alice] only. *)
Theorem reviewer_only_has_no_row_through_the_file :
  (∀ iter df, Score.set_order iter → df ≠ [] →
     ∃ out, Score.main iter (Parquet.read_parquet df) = Some out
       ∧ Score.Out.engineer <$> out ≡ₚ elements (Score.authors df)
       ∧ ∀ eng, eng ∈ Score.submitters df → eng ∉ Score.authors df →
           eng ∉ Score.Out.engineer <$> out)
  ∧ outcome (main Sample.since Upstream.reviewed Sample.to_datetime 5)
    = Saved Upstream.reviewed_df
  ∧ "bob" ∈ Score.submitters Upstream.reviewed_df
  ∧ ("bob" ∉ Score.authors Upstream.reviewed_df)
  ∧ Score.Out.engineer <$>
      default [] (Parquet.scored Sample.since Upstream.reviewed
                    Sample.to_datetime 5 Sample.forwards)
    = ["alice"]
  ∧ ∃ out, Score.main Sample.forwards Upstream.reviewed_df = Some out
      ∧ Score.final_row Upstream.reviewed_df "bob" ∈ out
      ∧ Score.Out.engineer (Score.final_row Upstream.reviewed_df "bob") = "bob"
      ∧ Score.Out.delivery (Score.final_row Upstream.reviewed_df "bob")
        = Py.zero
      ∧ Score.Out.leadership (Score.final_row Upstream.reviewed_df "bob")
        = Py.zero
      ∧ Score.Out.reviews (Score.final_row Upstream.reviewed_df "bob")
        = Py.float_of_int 3.
Proof.
  split.
  { intros iter df Hiter Hdf.
    destruct (read_parquet_defined iter df Hiter Hdf) as [out Hmain].
    destruct (read_parquet_main iter df out Hiter Hmain) as [Hperm _].
    exists out. split; [done|]. split; [done|].
    intros eng _ Hauth Hin. apply Hauth.
    rewrite Hperm in Hin. by apply elem_of_elements in Hin. }
  assert ("bob" ∈ Score.submitters Upstream.reviewed_df) as Hbob.
  { apply elem_of_list_to_set, list_elem_of_In. vm_compute. by left. }
  split; [reflexivity|]. split; [done|]. split.
  { unfold Score.authors. rewrite elem_of_list_to_set.
    intros Hin. apply list_elem_of_In in Hin. vm_compute in Hin.
    by destruct Hin as [Hin|[]]. }
  split; [by vm_compute|].
  destruct (main_defined Sample.forwards Upstream.reviewed_df) as [out Hmain];
    [by intros X | done |].
  exists out. split; [done|]. split.
  { apply (main_row_of Sample.forwards Upstream.reviewed_df out "bob");
      [by intros X | done |].
    apply elem_of_union_r. by rewrite reviewers_are_submitters. }
  split; [done|]. split; [by vm_compute|]. split; by vm_compute.
Qed.

(** C10: a review without author is flattened under the reviewer
    "unknown", with its submission time, and its points are pooled under
    that name when the cells of the table hold lists; the table that
    [score.py] reads holds none, and the review is dropped with every
    other review.  Read from the file a table is scored with no review
    points in any row, and with a row for "unknown" only if a record has no
    author.  So it is on the table of the upstream where a review of a
    record of [alice] has no author: the table saved holds the review under
    "unknown", with its submission time; scored as it is in memory the
    table has a row for "unknown", with 3 review points; scored as the
    program does, from the file, it has the row of [alice] only, without
    review points. *)
Theorem anonymous_review_is_dropped_through_the_file :
  (∀ rv : RawReview,
     rv_author rv = None ∨ rv_author rv = Some {| login := None |} →
     reviewer (flatten_review rv) = Some "unknown"
     ∧ submittedAt (flatten_review rv) = rv_submittedAt rv)
  ∧ (∀ iter df out,
       Score.set_order iter →
       Score.main iter (Parquet.read_parquet df) = Some out →
       (∀ row, row ∈ out → Score.Out.reviews row = Py.zero)
       ∧ ("unknown" ∈ (Score.Out.engineer <$> out)
          ↔ ∃ pr, pr ∈ df ∧ Score.df_author pr = "unknown"))
  ∧ outcome (main Sample.since Upstream.reviewed Sample.to_datetime 5)
    = Saved Upstream.reviewed_df
  ∧ reviews <$> Upstream.reviewed_df =
      [Some [{| reviewer := Some "bob"; state := Some "APPROVED";
                submittedAt := Some 50 |};
             {| reviewer := Some "unknown"; state := Some "APPROVED";
                submittedAt := Some 60 |}]]
  ∧ Score.Out.engineer <$>
      default [] (Parquet.scored Sample.since Upstream.reviewed
                    Sample.to_datetime 5 Sample.forwards)
    = ["alice"]
  ∧ Score.Out.reviews <$>
      default [] (Parquet.scored Sample.since Upstream.reviewed
                    Sample.to_datetime 5 Sample.forwards)
    = [Py.zero]
  ∧ ∃ out, Score.main Sample.forwards Upstream.reviewed_df = Some out
      ∧ Score.final_row Upstream.reviewed_df "unknown" ∈ out
      ∧ Score.Out.engineer (Score.final_row Upstream.reviewed_df "unknown")
        = "unknown"
      ∧ Score.Out.reviews (Score.final_row Upstream.reviewed_df "unknown")
        = Py.float_of_int 3.
Proof.
  split.
  { intros rv Hrv. split; [|done]. simpl. f_equal.
    by apply missing_login_is_unknown. }
  split.
  { intros iter df out Hiter Hmain.
    destruct (read_parquet_main iter df out Hiter Hmain) as [Hperm Hzero].
    split; [done|]. rewrite Hperm, elem_of_elements.
    unfold Score.authors. rewrite elem_of_list_to_set, list_elem_of_fmap.
    split; intros (pr & ? & ?); by exists pr. }
  split; [reflexivity|]. split; [reflexivity|].
  split; [by vm_compute|]. split; [by vm_compute|].
  destruct (main_defined Sample.forwards Upstream.reviewed_df) as [out Hmain];
    [by intros X | done |].
  exists out. split; [done|]. split.
  { apply (main_row_of Sample.forwards Upstream.reviewed_df out "unknown");
      [by intros X | done |].
    apply elem_of_union_r. rewrite reviewers_are_submitters.
    apply elem_of_list_to_set, list_elem_of_In. vm_compute. right. by left. }
  split; [done|]. by vm_compute.
Qed.

(** The two programs, one after the other.  When a run of the pipeline
    saves a table that is not empty, the engine, which reads it from the
    file, does not fail on it, and every author of the table saved has a
    row in the scored table. *)
Theorem saved_table_can_be_scored
    (SINCE_DT : Z) (post_gql : nat → option string → option PRBlock)
    (to_datetime : list Z → list (option Z))
    (fuel : nat) (df : list ActivityRecord) (iter : gset string → list string) :
  outcome (main SINCE_DT post_gql to_datetime fuel) = Saved df →
  Score.set_order iter → df ≠ [] →
  ∃ out, Parquet.scored SINCE_DT post_gql to_datetime fuel iter = Some out
    ∧ ∀ r, r ∈ df →
        ∃ row, row ∈ out ∧ author r = Some (Score.Out.engineer row).
Proof.
  intros Hsaved Hiter Hne.
  destruct (saved_break SINCE_DT post_gql to_datetime fuel df Hsaved)
    as (st & _ & _ & _ & _ & Hw).
  unfold Parquet.scored. rewrite Hsaved.
  destruct (read_parquet_defined iter df Hiter Hne) as [out Hout].
  exists out. split; [done|]. intros r Hr.
  assert (Ingested.normal r) as ((a & Ha & _) & _).
  { apply (written_rows_inv SINCE_DT post_gql to_datetime Ingested.normal fuel
             (keep_pr_normal SINCE_DT) df r); [|done].
    rewrite Hw. apply elem_of_app. right. left. }
  destruct (read_parquet_main iter df out Hiter Hout) as [Hperm _].
  assert (a ∈ Score.Out.engineer <$> out) as Hin.
  { rewrite Hperm, elem_of_elements. unfold Score.authors.
    apply elem_of_list_to_set, list_elem_of_fmap. exists r. split; [|done].
    unfold Score.df_author. by rewrite Ha. }
  apply list_elem_of_fmap in Hin as (row & -> & Hrow).
  by exists row.
Qed.

(** *** The samples *)

Lemma saved_table_can_be_scored_witness :
  outcome (main Sample.since Sample.one_page Sample.to_datetime 5)
  = Saved Sample.kept
  ∧ Score.set_order Sample.forwards
  ∧ Sample.kept ≠ []
  ∧ ∃ out, Parquet.scored Sample.since Sample.one_page Sample.to_datetime 5
             Sample.forwards = Some out
      ∧ ∀ r, r ∈ Sample.kept →
          ∃ row, row ∈ out ∧ author r = Some (Score.Out.engineer row).
Proof.
  split; [reflexivity|]. split; [intros X; reflexivity|].
  split; [discriminate|].
  apply (saved_table_can_be_scored Sample.since Sample.one_page
           Sample.to_datetime 5 Sample.kept Sample.forwards);
    [reflexivity | intros X; reflexivity | discriminate].
Defined.

Lemma written_rows_are_normal_witness :
  Sample.kept
    ∈ written (main Sample.since Sample.one_page Sample.to_datetime 5)
  ∧ (∀ r, r ∈ Sample.kept →
       (∃ a, author r = Some a ∧ a ≠ EmptyString)
       ∧ is_Some (labels r)
       ∧ is_Some (files r)
       ∧ ∃ rvs, reviews r = Some rvs
           ∧ ∀ rv, rv ∈ rvs → ∃ w, reviewer rv = Some w ∧ w ≠ EmptyString).
Proof.
  assert (Sample.kept
            ∈ written (main Sample.since Sample.one_page Sample.to_datetime 5))
    as Hin by (apply list_elem_of_In; vm_compute; left; reflexivity).
  split; [exact Hin|]. intros r Hr.
  apply (written_rows_are_normal Sample.since Sample.one_page
           Sample.to_datetime 5 Sample.kept r Hin Hr).
Defined.

Lemma checkpoints_are_prefixes_witness :
  outcome (main Sample.since Cases.long Sample.to_datetime 20)
  = Saved Cases.long_df
  ∧ ∃ st, fetch_loop Sample.since Cases.long 20 init = Break st
      ∧ length (written (main Sample.since Cases.long Sample.to_datetime 20))
        = (length (sent (main Sample.since Cases.long Sample.to_datetime 20))
           / 10 + 1)%nat
      ∧ written (main Sample.since Cases.long Sample.to_datetime 20)
        = writes st ++ [Cases.long_df]
      ∧ Forall (λ t, t `prefix_of` rows st) (writes st)
      ∧ Cases.long_df `sublist_of` rows st.
Proof.
  split; [by vm_compute|].
  apply (checkpoints_are_prefixes Sample.since Cases.long Sample.to_datetime
           20 Cases.long_df).
  by vm_compute.
Defined.

(** The long upstream: twelve requests, a checkpoint of ten rows after the
    tenth page, then the table of eleven rows. *)
Lemma long_run :
  length (sent (main Sample.since Cases.long Sample.to_datetime 20)) = 12%nat
  ∧ length <$> written (main Sample.since Cases.long Sample.to_datetime 20)
    = [10%nat; 11%nat].
Proof. split; by vm_compute. Qed.

(** A row that the loop has kept and whose merge time the second reading
    does not take is not in the table saved. *)
Lemma final_filter_drops_what_is_not_read :
  number <$> kept_rows Sample.since Upstream.three_page = [1; 2; 3]
  ∧ ∃ df, outcome (main Sample.since Upstream.three Upstream.coerce 5)
          = Saved df
      ∧ number <$> df = [1; 3].
Proof.
  split; [by vm_compute|].
  eexists. split; [reflexivity | by vm_compute].
Qed.

(** The flaky network: the third reply is returned, after two sleeps; the
    network that denies: six requests for nothing. *)
Lemma flaky_and_denied :
  Transport.post_gql Cases.flaky =
    {| Transport.returned := Some 8%nat; Transport.posts := 3;
       Transport.sleeps := [Py.literal 3 2; Py.literal 9 4] |}
  ∧ Transport.returned (Transport.post_gql Cases.denied) = None
  ∧ Transport.posts (Transport.post_gql Cases.denied) = 6%nat.
Proof. split; [|split]; by vm_compute. Qed.

End Together.

Section EngineSamples.

Import Score.

Lemma why_column_witness :
  set_order Sample.forwards
  ∧ main Sample.forwards Sample.anonymous = Some Sample.anonymous_scored
  ∧ Cases.unknown_row ∈ Sample.anonymous_scored
  ∧ Out.why Cases.unknown_row =
      join nl ((λ b, ("- " ++ b)%string) <$>
                 Expected.evidence Sample.anonymous
                   (Out.engineer Cases.unknown_row)
                   (Out.leadership Cases.unknown_row)).
Proof.
  assert (Cases.unknown_row ∈ Sample.anonymous_scored) as Hin
    by (apply list_elem_of_In; vm_compute; left; reflexivity).
  split; [intros X; reflexivity|]. split; [by vm_compute|].
  split; [exact Hin|].
  apply (why_column Sample.forwards Sample.anonymous Sample.anonymous_scored
           Cases.unknown_row); [intros X; reflexivity | by vm_compute | exact Hin].
Defined.

(** The evidence of the anonymous contributor of the sample. *)
Lemma unknown_evidence :
  Expected.evidence Sample.anonymous "unknown"
    (Out.leadership Cases.unknown_row)
  = ["Shipped 1 merged PRs (top examples linked).";
     "Unblocked via 2 reviews (2 early).";
     "Contributed leverage work (infra/tooling changes)."].
Proof. by vm_compute. Qed.

Lemma reviews_column_witness :
  set_order Sample.forwards
  ∧ main Sample.forwards Sample.anonymous = Some Sample.anonymous_scored
  ∧ Cases.unknown_row ∈ Sample.anonymous_scored
  ∧ Out.reviews Cases.unknown_row =
      Py.float_of_int
        (W_REVIEW
         * Z.of_nat (length (reviews_of (Out.engineer Cases.unknown_row)
                               (review_rows Sample.anonymous)))
         + W_REVIEW_EARLY
           * Z.of_nat (length (Expected.early_of
                                 (Out.engineer Cases.unknown_row)
                                 (review_rows Sample.anonymous)))).
Proof.
  assert (Cases.unknown_row ∈ Sample.anonymous_scored) as Hin
    by (apply list_elem_of_In; vm_compute; left; reflexivity).
  split; [intros X; reflexivity|]. split; [by vm_compute|].
  split; [exact Hin|].
  apply (reviews_column Sample.forwards Sample.anonymous
           Sample.anonymous_scored Cases.unknown_row);
    [intros X; reflexivity | by vm_compute | exact Hin].
Defined.

Lemma impact_is_the_sum_of_the_columns_witness :
  set_order Sample.forwards
  ∧ main Sample.forwards Sample.anonymous = Some Sample.anonymous_scored
  ∧ Cases.unknown_row ∈ Sample.anonymous_scored
  ∧ Out.impact_score Cases.unknown_row =
      SFadd Py.prec Py.emax
        (SFadd Py.prec Py.emax (Out.delivery Cases.unknown_row)
           (Out.leadership Cases.unknown_row))
        (Out.reviews Cases.unknown_row).
Proof.
  assert (Cases.unknown_row ∈ Sample.anonymous_scored) as Hin
    by (apply list_elem_of_In; vm_compute; left; reflexivity).
  split; [intros X; reflexivity|]. split; [by vm_compute|].
  split; [exact Hin|].
  apply (impact_is_the_sum_of_the_columns Sample.forwards Sample.anonymous
           Sample.anonymous_scored Cases.unknown_row);
    [intros X; reflexivity | by vm_compute | exact Hin].
Defined.

Lemma empty_table_is_an_error_witness :
  set_order Sample.forwards
  ∧ (main Sample.forwards [] = None ↔ ([] : list ActivityRecord) = []).
Proof.
  split; [intros X; reflexivity|].
  apply (empty_table_is_an_error Sample.forwards []). intros X. reflexivity.
Defined.

End EngineSamples.
